(** * Report Refresh orchestrator (sc360-reportrefresh-dev-all-regions.py)

    A shallow embedding of the Glue job [ReportRefresh]: the ordered
    execution of Redshift stored procedures with a bounded retry per
    procedure, the audit updates in RDS and the SNS notifications.

    Conventions of the embedding.
    - The boto3 clients, the clock and [time.sleep] are the environment:
      an abstract world [W] with one handler per call ([Services]).
    - A method of the class is a computation in the monad [M]: it threads
      the world, the trace of external calls made so far and the object
      [self]; it ends with a value, with a Python exception, or it runs
      out of fuel in a [while] loop.
    - [print] only writes to the job log and is left out.
    - The SQL texts and the JSON payloads are kept structured: one
      constructor per f-string or dict literal, with the interpolated
      values as arguments.  The connection arguments of the clients
      (resourceArn, secretArn, ClusterIdentifier, ...) are constant fields
      of [self] and are not repeated in the events. *)

From Stdlib Require Import ZArith List String Ascii Bool Lia DecimalString
  Sorted.
Import ListNotations.
Open Scope string_scope.
Open Scope Z_scope.

(** ** Data *)

(** A raised Python exception: its class and [str(e)]. *)
Record Exn := mkExn { exn_class : string; exn_text : string }.

(** One field of an RDS Data API row: a dict that may hold 'stringValue'. *)
Record Field := mkField { stringValue : option string }.

Definition Row := list Field.

(** Response of [rds_client.execute_statement]. *)
Record RdsResponse := mkRdsResponse { records : list Row }.

(** Response of [redshiftclient.describe_statement], also the synthetic
    dict [{'Status': 'FAILED', 'Error': str(e)}] built by the poller. *)
Record StatementStatus := mkStatus { Status : string; Error : option string }.

(** The dict stored in [self.failed_sp_entry]. *)
Record FailedSpEntry := mkFailedSpEntry {
  Stored_Procedure_Name : string;
  Entry_Error : string;
  Data_Source : string;
  Entry_Region : string
}.

(** An element of the [failed_sps] list handed to [send_sns_message]. *)
Inductive ErrorItem :=
| FailedSp (entry : FailedSpEntry)
| ErrorText (text : string).

(** The two payloads given to [json.dumps] in [send_sns_message]. *)
Inductive SnsMessage :=
| StatusMessage (Env : string) (Error_Message : list ErrorItem)
    (status Region Glue_Job_name Log_Group Log_Stream_ID : string)
| SuccessMessage (Env Message Report_Url : string).

(** The statements sent to RDS.  [actual_start_time] and
    [actual_end_time] are [datetime.utcnow()] at the time the text is
    built.  [SelectPendingSps region] is the query of [fetch_pending_sps]:
    SELECT stored_procedure_name, file_datasource
    FROM audit.sc360_reportrefresh WHERE region = region
    AND file_datasource NOT LIKE '%BMT%' ORDER BY exec_order. *)
Inductive Sql :=
| UpdateMasterInitial (actual_start_time : Z) (status regionname : string)
| UpdateTriggerLog (execution_status : string) (actual_end_time : Z)
    (error_message regionname batchrundate : string)
| UpdateMaster (status regionname : string)
| SelectPendingSps (region : string).

(** External calls, in the order the job makes them, each with the
    answer it got: [inl e] when the call raised [e]. *)
Inductive Event :=
| EvRds (sql : Sql) (answer : Exn + RdsResponse)
| EvRedshiftExecute (sql : string) (answer : Exn + string)
| EvDescribe (query_id : string) (answer : Exn + StatementStatus)
| EvPublish (TargetArn : string) (Message : SnsMessage) (Subject : string)
    (answer : Exn + unit)
| EvSleep (seconds : Z).

(** The resolved Glue job parameters ([getResolvedOptions]);
    [RETRY_LIMIT] is given after [int(...)]. *)
Record Args := mkArgs {
  arg_JOB_NAME : string;
  arg_JOB_RUN_ID : string;
  arg_env : string;
  arg_sns_arn : string;
  arg_reportregionname : string;
  arg_resourcearn : string;
  arg_secretarn : string;
  arg_database : string;
  arg_schema : string;
  arg_clusteridentifier : string;
  arg_redshiftdatabase : string;
  arg_redshiftuser : string;
  arg_redshiftsecret : string;
  arg_users_sns_arn : string;
  arg_report_url : string;
  arg_RETRY_LIMIT : Z
}.

(** The attributes of a [ReportRefresh] object.  [failed_sp_entry] and
    [error_message] are not set by [__init__]: [None] is the unset
    attribute, and reading it raises AttributeError. *)
Record Self := mkSelf {
  BatchRunDate : string;
  RETRY_LIMIT : Z;
  Job_name : string;
  loggroupname : string;
  job_run_id : string;
  reportregionname : string;
  resourcearn : string;
  secretarn : string;
  database : string;
  schema : string;
  clusteridentifier : string;
  redshiftdatabase : string;
  redshiftuser : string;
  redshiftsecret : string;
  env : string;
  sns_arn : string;
  report_url : string;
  failedsps : list string;
  failed_sp_entry : option FailedSpEntry;
  error_message : option string
}.

Definition set_failed_sp_entry (e : FailedSpEntry) (o : Self) : Self :=
  mkSelf (BatchRunDate o) (RETRY_LIMIT o) (Job_name o) (loggroupname o)
    (job_run_id o) (reportregionname o) (resourcearn o) (secretarn o)
    (database o) (schema o) (clusteridentifier o) (redshiftdatabase o)
    (redshiftuser o) (redshiftsecret o) (env o) (sns_arn o) (report_url o)
    (failedsps o) (Some e) (error_message o).

Definition set_error_message (m : string) (o : Self) : Self :=
  mkSelf (BatchRunDate o) (RETRY_LIMIT o) (Job_name o) (loggroupname o)
    (job_run_id o) (reportregionname o) (resourcearn o) (secretarn o)
    (database o) (schema o) (clusteridentifier o) (redshiftdatabase o)
    (redshiftuser o) (redshiftsecret o) (env o) (sns_arn o) (report_url o)
    (failedsps o) (failed_sp_entry o) (Some m).

(** [ReportRefresh.__init__]; [today] is [date.today()]. *)
Definition init (today : string) (args : Args) : Self :=
  {| BatchRunDate := today;
     RETRY_LIMIT := arg_RETRY_LIMIT args;
     Job_name := arg_JOB_NAME args;
     loggroupname := "/aws-glue/jobs/output";
     job_run_id := arg_JOB_RUN_ID args;
     reportregionname := arg_reportregionname args;
     resourcearn := arg_resourcearn args;
     secretarn := arg_secretarn args;
     database := arg_database args;
     schema := arg_schema args;
     clusteridentifier := arg_clusteridentifier args;
     redshiftdatabase := arg_redshiftdatabase args;
     redshiftuser := arg_redshiftuser args;
     redshiftsecret := arg_redshiftsecret args;
     env := arg_env args;
     sns_arn := arg_users_sns_arn args;
     report_url := arg_report_url args;
     failedsps := [];
     failed_sp_entry := None;
     error_message := None |}.

(** ** String helpers *)

(** [str(n)] of an int. *)
Definition str_int (n : Z) : string := NilZero.string_of_int (Z.to_int n).

(** [":" in s] *)
Fixpoint has_colon (s : string) : bool :=
  match s with
  | EmptyString => false
  | String c s' => if Ascii.eqb c ":" then true else has_colon s'
  end.

(** [s.split(":", 1)[-1]]: what follows the first colon, the whole
    string when there is none. *)
Fixpoint split_colon_last (s : string) : string :=
  match s with
  | EmptyString => EmptyString
  | String c s' =>
      if Ascii.eqb c ":" then s'
      else if has_colon s' then split_colon_last s' else s
  end.

(** [error_msg.split(":", 1)[-1] if ":" in error_msg else error_msg] *)
Definition error_fragment (error_msg : string) : string :=
  if has_colon error_msg then split_colon_last error_msg else error_msg.

(** [f"CALL {sp_name};"] *)
Definition call_sql (sp_name : string) : string := "CALL " ++ sp_name ++ ";".

Arguments call_sql : simpl never.

(** [file_source if file_source == "SPDST" else "SPDST/Others"] *)
Definition data_source_label (file_source : string) : string :=
  if String.eqb file_source "SPDST" then file_source else "SPDST/Others".

(** [query_status in ['FINISHED', 'FAILED', 'ABORTED']] *)
Definition is_terminal (query_status : string) : bool :=
  String.eqb query_status "FINISHED" || String.eqb query_status "FAILED"
  || String.eqb query_status "ABORTED".

(** [range(lo, lo + n)] *)
Fixpoint range (lo : Z) (n : nat) : list Z :=
  match n with
  | O => []
  | S n' => lo :: range (lo + 1) n'
  end.

(** [(row[0]['stringValue'], row[1]['stringValue'])] *)
Definition parse_row (row : Row) : Exn + (string * string) :=
  match row with
  | f0 :: rest =>
      match stringValue f0 with
      | None => inl (mkExn "KeyError" "'stringValue'")
      | Some name =>
          match rest with
          | f1 :: _ =>
              match stringValue f1 with
              | None => inl (mkExn "KeyError" "'stringValue'")
              | Some source => inr (name, source)
              end
          | [] => inl (mkExn "IndexError" "list index out of range")
          end
      end
  | [] => inl (mkExn "IndexError" "list index out of range")
  end.

(** The list comprehension over [response['records']]: the first row
    that cannot be read raises. *)
Fixpoint parse_records (rows : list Row) : Exn + list (string * string) :=
  match rows with
  | [] => inr []
  | row :: rows' =>
      match parse_row row with
      | inl e => inl e
      | inr p =>
          match parse_records rows' with
          | inl e => inl e
          | inr ps => inr (p :: ps)
          end
      end
  end.

(** ** The environment *)

Record Services (W : Type) := mkServices {
  rds_execute_statement : Sql -> W -> (Exn + RdsResponse) * W;
  redshift_execute_statement : string -> W -> (Exn + string) * W;
  describe_statement : string -> W -> (Exn + StatementStatus) * W;
  sns_publish : string -> SnsMessage -> string -> W -> (Exn + unit) * W;
  utcnow : W -> Z;
  time_sleep : Z -> W -> W
}.

Arguments rds_execute_statement {W}.
Arguments redshift_execute_statement {W}.
Arguments describe_statement {W}.
Arguments sns_publish {W}.
Arguments utcnow {W}.
Arguments time_sleep {W}.

(** ** The monad of the job *)

Inductive outcome (A : Type) :=
| Ret (a : A)
| Raise (e : Exn)
| OutOfFuel.

Arguments Ret {A}.
Arguments Raise {A}.
Arguments OutOfFuel {A}.

Record St (W : Type) := mkSt { world : W; trace : list Event; self : Self }.

Arguments mkSt {W}.
Arguments world {W}.
Arguments trace {W}.
Arguments self {W}.

Definition M (W A : Type) := St W -> outcome A * St W.

Definition ret {W A} (a : A) : M W A := fun s => (Ret a, s).

Definition raise {W A} (e : Exn) : M W A := fun s => (Raise e, s).

Definition out_of_fuel {W A} : M W A := fun s => (OutOfFuel, s).

Definition bind {W A B} (m : M W A) (k : A -> M W B) : M W B :=
  fun s =>
    match m s with
    | (Ret a, s') => k a s'
    | (Raise e, s') => (Raise e, s')
    | (OutOfFuel, s') => (OutOfFuel, s')
    end.

(** [try: body / except Exception as e: handler e] *)
Definition try_except {W A} (body : M W A) (handler : Exn -> M W A) : M W A :=
  fun s =>
    match body s with
    | (Raise e, s') => handler e s'
    | r => r
    end.

Declare Scope job_scope.
Delimit Scope job_scope with job.
Notation "x <- c ;; k" := (bind c (fun x => k))
  (at level 61, c at next level, right associativity) : job_scope.
Notation "' p <- c ;; k" := (bind c (fun p => k))
  (at level 61, p pattern, c at next level, right associativity) : job_scope.
Notation "c ;; k" := (bind c (fun _ => k))
  (at level 61, right associativity) : job_scope.
Open Scope job_scope.

(** How one loop body ends: go on with the next iteration, [break], or
    [return r] from the enclosing function. *)
Inductive ctl (L R : Type) :=
| Next (l : L)
| Break (l : L)
| Return (r : R).

Arguments Next {L R}.
Arguments Break {L R}.
Arguments Return {L R}.

(** [for x in xs: body]; [None] when the loop ends without [return]. *)
Fixpoint for_each {W A R} (xs : list A) (body : A -> M W (ctl unit R))
  : M W (option R) :=
  match xs with
  | [] => ret None
  | x :: xs' =>
      c <- body x ;;
      match c with
      | Next _ => for_each xs' body
      | Break _ => ret None
      | Return r => ret (Some r)
      end
  end.

(** [while cond(l): body]; [l] holds the local variables the loop
    assigns.  [fuel] bounds the number of iterations. *)
Fixpoint while_ {W L R} (fuel : nat) (cond : L -> bool)
  (body : L -> M W (ctl L R)) (l : L) : M W (L + R) :=
  if cond l then
    match fuel with
    | O => out_of_fuel
    | S fuel' =>
        c <- body l ;;
        match c with
        | Next l' => while_ fuel' cond body l'
        | Break l' => ret (inl l')
        | Return r => ret (inr r)
        end
    end
  else ret (inl l).

Section Job.

Context {W : Type} (svc : Services W).

Local Abbreviation M := (M W).

(** *** Primitive operations *)

Definition get_self : M Self := fun s => (Ret (self s), s).

Definition modify_self (f : Self -> Self) : M unit :=
  fun s => (Ret tt, mkSt (world s) (trace s) (f (self s))).

Definition call {A} (ev : Exn + A -> Event) (h : W -> (Exn + A) * W)
  : M A :=
  fun s =>
    let (r, w') := h (world s) in
    let s' := mkSt w' (trace s ++ [ev r]) (self s) in
    match r with
    | inl e => (Raise e, s')
    | inr a => (Ret a, s')
    end.

(** [self.rds_client.execute_statement(..., sql=sql)] *)
Definition rds_execute (sql : Sql) : M RdsResponse :=
  call (EvRds sql) (rds_execute_statement svc sql).

(** [self.redshiftclient.execute_statement(..., Sql=sql)['Id']] *)
Definition redshift_execute (sql : string) : M string :=
  call (EvRedshiftExecute sql) (redshift_execute_statement svc sql).

(** [self.redshiftclient.describe_statement(Id=query_id)] *)
Definition describe (query_id : string) : M StatementStatus :=
  call (EvDescribe query_id) (describe_statement svc query_id).

(** [self.sns_client.publish(TargetArn=..., Message=..., Subject=...)] *)
Definition publish (target : string) (msg : SnsMessage) (subject : string)
  : M unit :=
  call (EvPublish target msg subject) (sns_publish svc target msg subject).

(** [time.sleep(seconds)] *)
Definition sleep (seconds : Z) : M unit :=
  fun s =>
    (Ret tt,
     mkSt (time_sleep svc seconds (world s)) (trace s ++ [EvSleep seconds])
       (self s)).

(** [datetime.utcnow()] *)
Definition now : M Z := fun s => (Ret (utcnow svc (world s)), s).

Definition lift_sum {A} (r : Exn + A) : M A :=
  match r with
  | inl e => raise e
  | inr a => ret a
  end.

Definition attribute_error (name : string) : Exn :=
  mkExn "AttributeError"
    ("'ReportRefresh' object has no attribute '" ++ name ++ "'").

(** [self.error_message] *)
Definition get_error_message : M string :=
  o <- get_self ;;
  match error_message o with
  | Some m => ret m
  | None => raise (attribute_error "error_message")
  end.

(** [self.failed_sp_entry] *)
Definition get_failed_sp_entry : M FailedSpEntry :=
  o <- get_self ;;
  match failed_sp_entry o with
  | Some e => ret e
  | None => raise (attribute_error "failed_sp_entry")
  end.

(** *** send_sns_message *)

Definition send_sns_message (status : string) (failed_sps : list ErrorItem)
  : M unit :=
  try_except
    (o <- get_self ;;
     let sns_message :=
       StatusMessage (env o) failed_sps status (reportregionname o)
         (Job_name o) (loggroupname o) (job_run_id o) in
     let sns_subject :=
       reportregionname o ++ " SPDST/Others Report Refresh "
       ++ (match failed_sps with [] => "Successful" | _ => "Failed" end) in
     publish (sns_arn o) sns_message sns_subject ;;
     if (Z.of_nat (List.length failed_sps) =? 0)%Z then
       let sns_message :=
         SuccessMessage (env o)
           (reportregionname o
            ++ " SPDST/others Report Refresh is Completed Successfully.")
           (report_url o) in
       let sns_subject :=
         reportregionname o ++ " SPDST/others Report Refresh Successful" in
       publish (sns_arn o) sns_message sns_subject
     else ret tt)
    (fun e => ret tt).

(** *** update_audit_log *)

Definition max_retries : Z := 3.

(** The exception raised once the three tries of an RDS statement have
    failed. *)
Definition rds_failed : Exn :=
  mkExn "RuntimeError" "RDS query failed after 3 attempts".

(** The body of the [for attempt] loop of [execute_with_retry]. *)
Definition execute_with_retry_body (sql : Sql) (attempt : Z)
  : M (ctl unit unit) :=
  try_except
    (rds_execute sql ;;
     ret (Break tt))
    (fun e =>
       if (attempt =? max_retries)%Z then raise rds_failed
       else
         sleep (3 * attempt) ;;
         ret (Next tt)).

(** The local function [execute_with_retry] of [update_audit_log]. *)
Definition execute_with_retry (sql : Sql) : M unit :=
  for_each (range 1 (Z.to_nat max_retries)) (execute_with_retry_body sql) ;;
  ret tt.

(** [f"{execution_status}"] *)
Definition fmt_opt (x : option string) : string :=
  match x with
  | Some v => v
  | None => "None"
  end.

Definition update_audit_log (status : string)
  (execution_status : option string) (is_initial : bool) : M unit :=
  try_except
    (if is_initial then
       o <- get_self ;;
       t <- now ;;
       execute_with_retry (UpdateMasterInitial t status (reportregionname o))
     else
       o <- get_self ;;
       t <- now ;;
       msg <- get_error_message ;;
       execute_with_retry
         (UpdateTriggerLog (fmt_opt execution_status) t msg
            (reportregionname o) (BatchRunDate o)) ;;
       execute_with_retry (UpdateMaster status (reportregionname o)))
    (fun e => ret tt).

(** *** fetch_pending_sps *)

(** The body of the [for attempt] loop of [fetch_pending_sps]. *)
Definition fetch_pending_sps_body (sql : Sql) (attempt : Z)
  : M (ctl unit (list (string * string))) :=
  try_except
    (response <- rds_execute sql ;;
     rows <- lift_sum (parse_records (records response)) ;;
     ret (Return rows))
    (fun e =>
       if (attempt =? max_retries)%Z then raise rds_failed
       else
         sleep (3 * attempt) ;;
         ret (Next tt)).

Definition fetch_pending_sps : M (list (string * string)) :=
  o <- get_self ;;
  let sql := SelectPendingSps (reportregionname o) in
  r <- for_each (range 1 (Z.to_nat max_retries))
         (fetch_pending_sps_body sql) ;;
  match r with
  | Some rows => ret rows
  | None => ret []
  end.

(** *** check_query_status *)

(** The local variables of the polling loop: [response_status] (unbound
    before the first iteration) and [query_status]. *)
Definition PollVars : Type := option StatementStatus * string.

(** The body of the [while] loop of [check_query_status]. *)
Definition check_query_status_body (query_id : string) (sleep_time : Z)
  (v : PollVars) : M (ctl PollVars unit) :=
  try_except
    (response_status <- describe query_id ;;
     ret (Next (Some response_status, Status response_status)))
    (fun e =>
       let response_status := mkStatus "FAILED" (Some (exn_text e)) in
       sleep sleep_time ;;
       ret (Next (Some response_status, "FAILED"))).

Definition check_query_status (fuel : nat) (query_id : string)
  (sleep_time : Z) : M (StatementStatus * string) :=
  r <- while_ fuel
         (fun v : PollVars => negb (is_terminal (snd v)))
         (check_query_status_body query_id sleep_time)
         (None, "SUBMITTED") ;;
  match r with
  | inl (Some response_status, query_status) =>
      ret (response_status, query_status)
  | inl (None, _) =>
      raise (mkExn "UnboundLocalError" "response_status")
  | inr _ => ret (mkStatus "" None, "")
  end.

(** *** execute_sp_with_retries *)

(** [response_status.get("Error", "Unknown error")] *)
Definition get_error (response_status : StatementStatus) : string :=
  match Error response_status with
  | Some m => m
  | None => "Unknown error"
  end.

(** The body of the [while] loop of [execute_sp_with_retries]; [o] is
    [self], of which the loop reads [RETRY_LIMIT] and [reportregionname],
    two attributes never assigned after [__init__]. *)
Definition execute_sp_with_retries_body (fuel : nat) (o : Self)
  (sp_name file_source : string) (retries : Z) : M (ctl Z bool) :=
  try_except
    (query_id <- redshift_execute (call_sql sp_name) ;;
     ' (response_status, query_status) <-
         check_query_status fuel query_id 120 ;;
     if String.eqb query_status "FAILED" then
       let error_msg := get_error response_status in
       let retries := (retries + 1)%Z in
       if (retries <? RETRY_LIMIT o)%Z then
         sleep 120 ;;
         ret (Next retries)
       else
         modify_self
           (set_failed_sp_entry
              (mkFailedSpEntry sp_name error_msg
                 (data_source_label file_source) (reportregionname o))) ;;
         modify_self (set_error_message (error_fragment error_msg)) ;;
         ret (Return false)
     else
       modify_self (set_error_message "Null") ;;
       ret (Return true))
    (fun e => ret (Next (retries + 1)%Z)).

Definition execute_sp_with_retries (fuel : nat) (sp_name file_source : string)
  : M bool :=
  o <- get_self ;;
  r <- while_ fuel
         (fun retries : Z => (retries <? RETRY_LIMIT o)%Z)
         (execute_sp_with_retries_body fuel o sp_name file_source)
         0%Z ;;
  match r with
  | inl _ => ret false
  | inr b => ret b
  end.

(** *** main *)

(** The exception raised by [main] when a procedure has used up its
    retries. *)
Definition terminating (o : Self) (sp_name : string) : Exn :=
  mkExn "Exception"
    ("SP " ++ sp_name ++ " failed after " ++ str_int (RETRY_LIMIT o)
     ++ " retries in " ++ env o ++ " - " ++ reportregionname o
     ++ ". Job terminating.").

(** The body of [for sp_name, file_source in stored_procedures]. *)
Definition main_for_body (fuel : nat) (sp : string * string)
  : M (ctl unit bool) :=
  let (sp_name, file_source) := sp in
  success <- execute_sp_with_retries fuel sp_name file_source ;;
  if negb success then
    update_audit_log "Failed" (Some "Failed") false ;;
    entry <- get_failed_sp_entry ;;
    send_sns_message "Failed" [FailedSp entry] ;;
    o <- get_self ;;
    raise (terminating o sp_name)
  else ret (Next tt).

(** The [except Exception as e] clause of [main]. *)
Definition main_handler (e : Exn) : M bool :=
  update_audit_log "Failed" (Some "Failed") false ;;
  send_sns_message "Failed" [ErrorText "Unexpected error"] ;;
  raise e.

Definition main (fuel : nat) : M bool :=
  try_except
    (update_audit_log "InProgress" None true ;;
     stored_procedures <- fetch_pending_sps ;;
     match stored_procedures with
     | [] =>
         send_sns_message "Succeeded" [] ;;
         ret true
     | _ =>
         for_each (R := bool) stored_procedures (main_for_body fuel) ;;
         update_audit_log "Completed" (Some "Finished") false ;;
         send_sns_message "Succeeded" [] ;;
         ret true
     end)
    main_handler.

End Job.

(** ** A scripted environment

    Each client answers from its own queue of prepared answers, one per
    call, and gives a default answer once the queue is empty: RDS an
    empty result, Redshift the query id "q", [describe_statement] the
    status FINISHED, SNS a success.  [time.sleep] advances the clock. *)

Module Scripted.

Record World := mkWorld {
  rds_script : list (Exn + RdsResponse);
  redshift_script : list (Exn + string);
  describe_script : list (Exn + StatementStatus);
  sns_script : list (Exn + unit);
  clock : Z
}.

Definition pop {A} (default : A) (q : list (Exn + A))
  : (Exn + A) * list (Exn + A) :=
  match q with
  | [] => (inr default, [])
  | r :: q' => (r, q')
  end.

Definition services : Services World :=
  {| rds_execute_statement := fun _ w =>
       let (r, q) := pop (mkRdsResponse []) (rds_script w) in
       (r, mkWorld q (redshift_script w) (describe_script w) (sns_script w)
             (clock w));
     redshift_execute_statement := fun _ w =>
       let (r, q) := pop "q" (redshift_script w) in
       (r, mkWorld (rds_script w) q (describe_script w) (sns_script w)
             (clock w));
     describe_statement := fun _ w =>
       let (r, q) := pop (mkStatus "FINISHED" None) (describe_script w) in
       (r, mkWorld (rds_script w) (redshift_script w) q (sns_script w)
             (clock w));
     sns_publish := fun _ _ _ w =>
       let (r, q) := pop tt (sns_script w) in
       (r, mkWorld (rds_script w) (redshift_script w) (describe_script w) q
             (clock w));
     utcnow := clock;
     time_sleep := fun seconds w =>
       mkWorld (rds_script w) (redshift_script w) (describe_script w)
         (sns_script w) (clock w + seconds) |}.

(** A result of the SELECT of [fetch_pending_sps]. *)
Definition rows (l : list (string * string)) : Exn + RdsResponse :=
  inr (mkRdsResponse
         (map (fun p => [mkField (Some (fst p)); mkField (Some (snd p))]) l)).

Definition ok : Exn + RdsResponse := inr (mkRdsResponse []).

Definition failed (err : string) : Exn + StatementStatus :=
  inr (mkStatus "FAILED" (Some err)).

Definition status (st : string) : Exn + StatementStatus :=
  inr (mkStatus st None).

Definition boom (A : Type) (text : string) : Exn + A :=
  inl (mkExn "ClientError" text).

Definition args (retry_limit : Z) : Args :=
  {| arg_JOB_NAME := "job"; arg_JOB_RUN_ID := "jr_1"; arg_env := "dev";
     arg_sns_arn := "arn:ops"; arg_reportregionname := "EMEA";
     arg_resourcearn := "arn:rds"; arg_secretarn := "arn:secret";
     arg_database := "db"; arg_schema := "audit";
     arg_clusteridentifier := "cluster"; arg_redshiftdatabase := "rsdb";
     arg_redshiftuser := "user"; arg_redshiftsecret := "arn:rssecret";
     arg_users_sns_arn := "arn:users"; arg_report_url := "https://report";
     arg_RETRY_LIMIT := retry_limit |}.

(** The state in which [job.main()] starts. *)
Definition start (retry_limit : Z) (w : World) : St World :=
  mkSt w [] (init "2025-01-01" (args retry_limit)).

End Scripted.

(** ** Reading a trace *)

(** The statements submitted to Redshift, in order. *)
Fixpoint submissions (tr : list Event) : list string :=
  match tr with
  | [] => []
  | EvRedshiftExecute sql _ :: tr' => sql :: submissions tr'
  | _ :: tr' => submissions tr'
  end.

(** The messages handed to SNS, in order: topic and payload. *)
Fixpoint published (tr : list Event) : list (string * SnsMessage) :=
  match tr with
  | [] => []
  | EvPublish target msg _ _ :: tr' => (target, msg) :: published tr'
  | _ :: tr' => published tr'
  end.

(** The statements sent to RDS, in order. *)
Fixpoint rds_statements (tr : list Event) : list Sql :=
  match tr with
  | [] => []
  | EvRds sql _ :: tr' => sql :: rds_statements tr'
  | _ :: tr' => rds_statements tr'
  end.


(** The pauses, in order. *)
Fixpoint sleeps (tr : list Event) : list Z :=
  match tr with
  | [] => []
  | EvSleep n :: tr' => n :: sleeps tr'
  | _ :: tr' => sleeps tr'
  end.

(** A status notification that reports a failure. *)
Definition is_failure_message (m : SnsMessage) : bool :=
  match m with
  | StatusMessage _ (_ :: _) _ _ _ _ _ => true
  | _ => false
  end.

(** An audit statement that closes the run (end time or final status). *)
Definition closes_run (sql : Sql) : bool :=
  match sql with
  | UpdateTriggerLog _ _ _ _ _ => true
  | UpdateMaster _ _ => true
  | _ => false
  end.



(** ** Scenarios *)

Module Scenario.
Import Scripted.

(** The engine reports ABORTED for the only submission. *)
Definition aborted : World :=
  mkWorld [] [] [status "ABORTED"] [] 0.

(** The statement is still running at the first status check. *)
Definition running_then_finished : World :=
  mkWorld [] [] [status "STARTED"; status "FINISHED"] [] 0.

(** No pending procedure: the SELECT answers no row. *)
Definition empty_work_list : World :=
  mkWorld [ok; rows []] [] [] [] 0.

(** Every submission of the only procedure is rejected. *)
Definition submit_rejected : World :=
  mkWorld [ok; rows [("SP_A", "SPDST")]]
    [boom string "connection reset"; boom string "connection reset"] [] [] 0.

(** Scenario A of the specification: SP_A finishes at once, SP_B fails
    three times. *)
Definition scenario_A : World :=
  mkWorld [ok; rows [("SP_A", "SPDST"); ("SP_B", "OTHERS")]] []
    [status "FINISHED"; failed "ERROR: e1"; failed "ERROR: e2";
     failed "ERROR: e3"] [] 0.

(** One procedure that finishes; the audit store is healthy. *)
Definition audit_up : World :=
  mkWorld [ok; rows [("SP_A", "SPDST")]] [] [] [] 0.


End Scenario.

(** ** Specification vocabulary *)

Open Scope list_scope.

Section Vocabulary.

Context {W : Type} (svc : Services W).

(** [emits I P m Q]: started with an object satisfying [I], the
    computation [m] keeps [I], only appends events satisfying [P] to the
    trace, and a returned value satisfies [Q].  It speaks of every way
    [m] may end, also by an exception or for lack of fuel. *)
Definition emits {A} (I : Self -> Prop) (P : Event -> Prop) (m : M W A)
  (Q : A -> Prop) : Prop :=
  forall s, I (self s) ->
    I (self (snd (m s))) /\
    (exists tl, trace (snd (m s)) = trace s ++ tl /\ Forall P tl) /\
    (forall a, fst (m s) = Ret a -> Q a).

(** [m] has no unbounded loop: it never stops for lack of fuel. *)
Definition total {A} (m : M W A) : Prop :=
  forall s, fst (m s) <> OutOfFuel.

(** The statements [update_audit_log status execution_status is_initial]
    may send. *)
Definition audit_statement (status : string) (execution_status : option string)
  (is_initial : bool) (sql : Sql) : Prop :=
  match sql with
  | UpdateMasterInitial _ st _ => is_initial = true /\ st = status
  | UpdateTriggerLog es _ _ _ _ =>
      is_initial = false /\ es = fmt_opt execution_status
  | UpdateMaster st _ => is_initial = false /\ st = status
  | SelectPendingSps _ => False
  end.

(** The payloads [send_sns_message status failed_sps] may publish. *)
Definition notification (status : string) (failed_sps : list ErrorItem)
  (msg : SnsMessage) : Prop :=
  match msg with
  | StatusMessage _ f st _ _ _ _ => f = failed_sps /\ st = status
  | SuccessMessage _ _ _ => failed_sps = []
  end.


(** The publication of a message that reports no failure. *)
Definition success_notice (ev : Event) : Prop :=
  match ev with
  | EvPublish _ msg _ _ => is_failure_message msg = false
  | _ => False
  end.

(** An event that is not a publication to a topic other than [topic]. *)
Definition publishes_to (topic : string) (ev : Event) : Prop :=
  match ev with
  | EvPublish target _ _ _ => target = topic
  | _ => True
  end.

(** An event of the completion poller. *)
Definition poll_event (ev : Event) : Prop :=
  match ev with
  | EvDescribe _ _ => True
  | EvSleep _ => True
  | _ => False
  end.


(** The calls of a retried RDS statement: one call per answer, and
    after the [k]-th failed call a pause of [3 * k] seconds. *)
Fixpoint backoff (sql : Sql) (k : Z) (answers : list (Exn + RdsResponse))
  : list Event :=
  match answers with
  | [] => []
  | [a] => [EvRds sql a]
  | a :: rest => EvRds sql a :: EvSleep (3 * k) :: backoff sql (k + 1) rest
  end.

(** The state after [time.sleep(seconds)]. *)
Definition slept (seconds : Z) (s : St W) : St W :=
  mkSt (time_sleep svc seconds (world s)) (trace s ++ [EvSleep seconds])
    (self s).

(** The state after assignments to attributes of [self]. *)
Definition with_self (f : Self -> Self) (s : St W) : St W :=
  mkSt (world s) (trace s) (f (self s)).

(** The two assignments of [execute_sp_with_retries] when the last
    execution allowed has ended with [response_status]:
    [self.failed_sp_entry] and [self.error_message]. *)
Definition record_failure (sp_name file_source : string)
  (response_status : StatementStatus) (o : Self) : Self :=
  set_error_message (error_fragment (get_error response_status))
    (set_failed_sp_entry
       (mkFailedSpEntry sp_name (get_error response_status)
          (data_source_label file_source) (reportregionname o)) o).

(** One execution of a procedure: the submission and the wait for a
    terminal status (the first two statements of the [try] block of
    [execute_sp_with_retries]). *)
Definition attempt (fuel : nat) (sp_name : string)
  : M W (StatementStatus * string) :=
  query_id <- redshift_execute svc (call_sql sp_name) ;;
  check_query_status svc fuel query_id 120.

(** [failed_attempts fuel sp n s s']: from [s], [n] executions of [sp]
    in a row end with the status FAILED, each followed by the pause of
    120 seconds, and lead to [s']. *)
Inductive failed_attempts (fuel : nat) (sp_name : string)
  : nat -> St W -> St W -> Prop :=
| fa_none s : failed_attempts fuel sp_name O s s
| fa_more n s response s1 s2 :
    attempt fuel sp_name s = (Ret (response, "FAILED"), s1) ->
    failed_attempts fuel sp_name n (slept 120 s1) s2 ->
    failed_attempts fuel sp_name (S n) s s2.

(** The events of [n] executions of one procedure: [n] submissions,
    each followed by the events of its poll, and a pause of 120 seconds
    between two consecutive executions. *)
Inductive retry_trace (call : string) : nat -> list Event -> Prop :=
| rt_last answer polls :
    Forall poll_event polls ->
    retry_trace call 1 (EvRedshiftExecute call answer :: polls)
| rt_more n answer polls rest :
    Forall poll_event polls ->
    retry_trace call n rest ->
    retry_trace call (S n)
      (EvRedshiftExecute call answer :: polls ++ EvSleep 120 :: rest).

(** The procedures of [sps] are executed in order from [s] and each one
    ends with [True], leading to [s']. *)
Inductive units_succeed (fuel : nat)
  : list (string * string) -> St W -> St W -> Prop :=
| us_nil s : units_succeed fuel [] s s
| us_cons sp_name file_source rest s s1 s2 :
    execute_sp_with_retries svc fuel sp_name file_source s = (Ret true, s1) ->
    units_succeed fuel rest s1 s2 ->
    units_succeed fuel ((sp_name, file_source) :: rest) s s2.

End Vocabulary.

(** An engine on which every statement fails: any submission is
    accepted and any status check answers FAILED with the same error.
    The world is the clock. *)
Module Failing.

Definition services (err : string) : Services Z :=
  {| rds_execute_statement := fun _ w => (inr (mkRdsResponse []), w);
     redshift_execute_statement := fun _ w => (inr "q", w);
     describe_statement := fun _ w => (inr (mkStatus "FAILED" (Some err)), w);
     sns_publish := fun _ _ _ w => (inr tt, w);
     utcnow := fun w => w;
     time_sleep := fun seconds w => w + seconds |}.

Definition start (retry_limit : Z) : St Z :=
  mkSt 0 [] (init "2025-01-01" (Scripted.args retry_limit)).

End Failing.

(** ** Further vocabulary *)

Section MoreVocabulary.

Context {W : Type} (svc : Services W).

(** The attributes [__init__] sets once and for all: the object without
    [failed_sp_entry] and [error_message]. *)
Definition config (o : Self) : Self :=
  mkSelf (BatchRunDate o) (RETRY_LIMIT o) (Job_name o) (loggroupname o)
    (job_run_id o) (reportregionname o) (resourcearn o) (secretarn o)
    (database o) (schema o) (clusteridentifier o) (redshiftdatabase o)
    (redshiftuser o) (redshiftsecret o) (env o) (sns_arn o) (report_url o)
    (failedsps o) None None.

(** The script: [job = ReportRefresh(); job.main()]. *)
Definition job (fuel : nat) (today : string) (args : Args) (w : W)
  : outcome bool * St W :=
  main svc fuel (mkSt w [] (init today args)).

(** The first publication of [send_sns_message]: the status message. *)
Definition status_event (o : Self) (status : string)
  (failed_sps : list ErrorItem) (answer : Exn + unit) : Event :=
  EvPublish (sns_arn o)
    (StatusMessage (env o) failed_sps status (reportregionname o)
       (Job_name o) (loggroupname o) (job_run_id o))
    (reportregionname o ++ " SPDST/Others Report Refresh "
     ++ (match failed_sps with [] => "Successful" | _ => "Failed" end))%string
    answer.

(** The second publication of [send_sns_message]: the message for the
    users, with the report URL. *)
Definition success_event (o : Self) (answer : Exn + unit) : Event :=
  EvPublish (sns_arn o)
    (SuccessMessage (env o)
       (reportregionname o
        ++ " SPDST/others Report Refresh is Completed Successfully.")%string
       (report_url o))
    (reportregionname o ++ " SPDST/others Report Refresh Successful")%string
    answer.

(** A refused call. *)
Definition refused {A} (answer : Exn + A) : Prop :=
  match answer with
  | inl _ => True
  | inr _ => False
  end.

(** The events of a poll, one status check per answer: a check that
    raises is followed by the pause. *)
Fixpoint poll_events (query_id : string) (sleep_time : Z)
  (answers : list (Exn + StatementStatus)) : list Event :=
  match answers with
  | [] => []
  | inl e :: rest =>
      EvDescribe query_id (inl e) :: EvSleep sleep_time
      :: poll_events query_id sleep_time rest
  | inr st :: rest =>
      EvDescribe query_id (inr st) :: poll_events query_id sleep_time rest
  end.

(** An answer that keeps the poller going: a status that is not
    terminal. *)
Definition still_running (answer : Exn + StatementStatus) : Prop :=
  match answer with
  | inr st => is_terminal (Status st) = false
  | inl _ => False
  end.

(** What the poller returns for the answer that ends the poll. *)
Definition poll_result (answer : Exn + StatementStatus)
  : StatementStatus * string :=
  match answer with
  | inr st => (st, Status st)
  | inl e => (mkStatus "FAILED" (Some (exn_text e)), "FAILED")
  end.

(** A submission of the statement [sql], or no submission at all. *)
Definition submits_only (sql : string) (ev : Event) : Prop :=
  match ev with
  | EvRedshiftExecute sql' _ => sql' = sql
  | _ => True
  end.

(** An event of the completion of a run: an audit write of the status
    Completed / Finished, a pause between two tries of it, or a message
    that reports no failure. *)
Definition completion_event (ev : Event) : Prop :=
  match ev with
  | EvRds sql _ => audit_statement "Completed" (Some "Finished") false sql
  | EvPublish _ msg _ _ => is_failure_message msg = false
  | EvSleep _ => True
  | EvRedshiftExecute _ _ => False
  | EvDescribe _ _ => False
  end.

(** The submissions of a batch whose procedures are executed in order,
    the i-th one [counts[i]] times. *)
Definition submission_blocks (units : list (string * string))
  (counts : list nat) : list string :=
  List.concat (map (fun p => repeat (call_sql (fst (fst p))) (snd p))
            (combine units counts)).

(** [m] raises no exception other than those satisfying [E] when started
    on an object satisfying [I]. *)
Definition raises_in {A} (I : Self -> Prop) (E : Exn -> Prop) (m : M W A)
  : Prop :=
  forall s e, I (self s) -> fst (m s) = Raise e -> E e.

(** The exceptions [main] raises on purpose or lets through. *)
Definition main_exception (o : Self) (e : Exn) : Prop :=
  e = rds_failed \/
  e = attribute_error "failed_sp_entry" \/
  exists sp_name, e = terminating o sp_name.

End MoreVocabulary.

(** An engine on which a statement never ends: every status check
    answers STARTED.  The world counts the status checks. *)
Module Running.

Definition services : Services nat :=
  {| rds_execute_statement := fun _ w => (inr (mkRdsResponse []), w);
     redshift_execute_statement := fun _ w => (inr "q", w);
     describe_statement := fun _ w => (inr (mkStatus "STARTED" None), S w);
     sns_publish := fun _ _ _ w => (inr tt, w);
     utcnow := fun _ => 0;
     time_sleep := fun _ w => w |}.

Definition start (retry_limit : Z) : St nat :=
  mkSt O [] (init "2025-01-01" (Scripted.args retry_limit)).

End Running.

(** An engine that rejects every submission. *)
Module Rejecting.

Definition services : Services unit :=
  {| rds_execute_statement := fun _ w => (inr (mkRdsResponse []), w);
     redshift_execute_statement := fun _ w =>
       (inl (mkExn "ClientError" "rejected"), w);
     describe_statement := fun _ w => (inr (mkStatus "FINISHED" None), w);
     sns_publish := fun _ _ _ w => (inr tt, w);
     utcnow := fun _ => 0;
     time_sleep := fun _ w => w |}.

Definition start (retry_limit : Z) : St unit :=
  mkSt tt [] (init "2025-01-01" (Scripted.args retry_limit)).

End Rejecting.

(** * Proofs *)

(** ** Rules for [emits] and [total] *)

Section Logic.

Context {W : Type} (svc : Services W).
Variables (I : Self -> Prop) (P : Event -> Prop).

Lemma emits_ret {A} (a : A) (Q : A -> Prop) : Q a -> emits I P (@ret W A a) Q.
Proof.
  intros HQ s HI; cbn. repeat split; auto.
  - exists []. now rewrite app_nil_r.
  - intros a' E. now inversion E; subst.
Qed.

Lemma emits_raise {A} (e : Exn) (Q : A -> Prop) : emits I P (@raise W A e) Q.
Proof.
  intros s HI; cbn. repeat split; auto.
  - exists []. now rewrite app_nil_r.
  - discriminate.
Qed.

Lemma emits_out_of_fuel {A} (Q : A -> Prop) : emits I P (@out_of_fuel W A) Q.
Proof.
  intros s HI; cbn. repeat split; auto.
  - exists []. now rewrite app_nil_r.
  - discriminate.
Qed.

Lemma emits_weaken {A} (m : M W A) (Q Q' : A -> Prop) :
  emits I P m Q -> (forall a, Q a -> Q' a) -> emits I P m Q'.
Proof.
  intros Hm HQ s HI. destruct (Hm s HI) as (H1 & H2 & H3).
  repeat split; auto.
Qed.

Lemma emits_bind {A B} (m : M W A) (k : A -> M W B) (Q : A -> Prop)
  (Q' : B -> Prop) :
  emits I P m Q -> (forall a, Q a -> emits I P (k a) Q') ->
  emits I P (bind m k) Q'.
Proof.
  intros Hm Hk s HI. destruct (Hm s HI) as (H1 & (tl & Ht & HP) & H3).
  unfold bind. destruct (m s) as [[a | e |] s1]; cbn in *.
  - destruct (Hk a (H3 a eq_refl) s1 H1) as (K1 & (tl' & Kt & KP) & K3).
    repeat split; auto.
    exists (tl ++ tl'). rewrite Kt, Ht, app_assoc. split; auto.
    apply Forall_app; auto.
  - repeat split; eauto. discriminate.
  - repeat split; eauto. discriminate.
Qed.

Lemma emits_try {A} (body : M W A) (handler : Exn -> M W A) (Q : A -> Prop) :
  emits I P body Q -> (forall e, emits I P (handler e) Q) ->
  emits I P (try_except body handler) Q.
Proof.
  intros Hm Hh s HI. destruct (Hm s HI) as (H1 & (tl & Ht & HP) & H3).
  unfold try_except. destruct (body s) as [[a | e |] s1]; cbn in *.
  - repeat split; eauto.
  - destruct (Hh e s1 H1) as (K1 & (tl' & Kt & KP) & K3).
    repeat split; auto.
    exists (tl ++ tl'). rewrite Kt, Ht, app_assoc. split; auto.
    apply Forall_app; auto.
  - repeat split; eauto.
Qed.

Lemma emits_get_self : emits I P (@get_self W) I.
Proof.
  intros s HI; cbn. repeat split; auto.
  - exists []. now rewrite app_nil_r.
  - intros a E. now inversion E; subst.
Qed.

Lemma emits_modify_self (f : Self -> Self) :
  (forall o, I o -> I (f o)) ->
  emits I P (@modify_self W f) (fun _ => True).
Proof.
  intros Hf s HI; cbn. repeat split; auto.
  exists []. now rewrite app_nil_r.
Qed.

Lemma emits_call {A} (ev : Exn + A -> Event) (h : W -> (Exn + A) * W) :
  (forall r, P (ev r)) -> emits I P (call ev h) (fun _ => True).
Proof.
  intros Hev s HI. unfold call.
  destruct (h (world s)) as [[e | a] w']; cbn; repeat split; eauto.
Qed.

Lemma emits_sleep (seconds : Z) :
  P (EvSleep seconds) -> emits I P (sleep svc seconds) (fun _ => True).
Proof.
  intros Hev s HI; cbn. repeat split; eauto.
Qed.

Lemma emits_now : emits I P (now svc) (fun _ => True).
Proof.
  intros s HI; cbn. repeat split; auto.
  exists []. now rewrite app_nil_r.
Qed.

Lemma emits_lift_sum {A} (r : Exn + A) : emits I P (@lift_sum W A r) (fun _ => True).
Proof.
  destruct r; cbn; [apply emits_raise | now apply emits_ret].
Qed.

Lemma emits_for_each {A R} (xs : list A) (body : A -> M W (ctl unit R)) :
  (forall x, emits I P (body x) (fun _ => True)) ->
  emits I P (for_each xs body) (fun _ => True).
Proof.
  intros Hb. induction xs as [| x xs IH]; cbn.
  - now apply emits_ret.
  - eapply emits_bind; [apply Hb |].
    intros [l | l | r] _; auto; now apply emits_ret.
Qed.

Lemma emits_while {L R} (fuel : nat) (cond : L -> bool)
  (body : L -> M W (ctl L R)) (l : L) :
  (forall l', emits I P (body l') (fun _ => True)) ->
  emits I P (while_ fuel cond body l) (fun _ => True).
Proof.
  intros Hb. revert l. induction fuel as [| fuel IH]; intros l; cbn.
  - destruct (cond l); [apply emits_out_of_fuel | now apply emits_ret].
  - destruct (cond l); [| now apply emits_ret].
    eapply emits_bind; [apply Hb |].
    intros [l' | l' | r] _; auto; now apply emits_ret.
Qed.

End Logic.

Section Totality.

Context {W : Type} (svc : Services W).

Lemma total_ret {A} (a : A) : total (@ret W A a).
Proof. intros s; discriminate. Qed.

Lemma total_raise {A} (e : Exn) : total (@raise W A e).
Proof. intros s; discriminate. Qed.

Lemma total_bind {A B} (m : M W A) (k : A -> M W B) :
  total m -> (forall a, total (k a)) -> total (bind m k).
Proof.
  intros Hm Hk s. unfold bind. specialize (Hm s).
  destruct (m s) as [[a | e |] s1]; cbn in *; try discriminate; auto.
  apply Hk.
Qed.

Lemma total_try {A} (body : M W A) (handler : Exn -> M W A) :
  total body -> (forall e, total (handler e)) ->
  total (try_except body handler).
Proof.
  intros Hm Hh s. unfold try_except. specialize (Hm s).
  destruct (body s) as [[a | e |] s1]; cbn in *; try discriminate; auto.
  apply Hh.
Qed.

Lemma total_call {A} (ev : Exn + A -> Event) (h : W -> (Exn + A) * W) :
  total (call ev h).
Proof.
  intros s. unfold call. destruct (h (world s)) as [[e | a] w']; discriminate.
Qed.

Lemma total_sleep (seconds : Z) : total (sleep svc seconds).
Proof. intros s; discriminate. Qed.

Lemma total_for_each {A R} (xs : list A) (body : A -> M W (ctl unit R)) :
  (forall x, total (body x)) -> total (for_each xs body).
Proof.
  intros Hb. induction xs as [| x xs IH]; cbn.
  - apply total_ret.
  - apply total_bind; [apply Hb |].
    intros [l | l | r]; auto; apply total_ret.
Qed.

End Totality.

(** ** What each method may emit *)

Section Methods.

Context {W : Type} (svc : Services W).
Variables (I : Self -> Prop) (P : Event -> Prop).

Hypothesis P_sleep : forall seconds, P (EvSleep seconds).

Lemma emits_execute_with_retry (sql : Sql) :
  (forall r, P (EvRds sql r)) ->
  emits I P (execute_with_retry svc sql) (fun _ => True).
Proof.
  intros Hsql. unfold execute_with_retry.
  eapply emits_bind; [| intros; now apply emits_ret].
  apply emits_for_each. intros attempt.
  unfold execute_with_retry_body. apply emits_try.
  - eapply emits_bind; [now apply emits_call |].
    intros; now apply emits_ret.
  - intros e. destruct (attempt =? max_retries)%Z; [apply emits_raise |].
    eapply emits_bind; [now apply emits_sleep |].
    intros; now apply emits_ret.
Qed.

Lemma emits_get_error_message :
  emits I P (@get_error_message W) (fun _ => True).
Proof.
  unfold get_error_message.
  eapply emits_bind; [apply emits_get_self |].
  intros o _. destruct (error_message o);
    [now apply emits_ret | apply emits_raise].
Qed.

Lemma emits_get_failed_sp_entry :
  emits I P (@get_failed_sp_entry W) (fun _ => True).
Proof.
  unfold get_failed_sp_entry.
  eapply emits_bind; [apply emits_get_self |].
  intros o _. destruct (failed_sp_entry o);
    [now apply emits_ret | apply emits_raise].
Qed.

Lemma emits_update_audit_log (status : string)
  (execution_status : option string) (is_initial : bool) :
  (forall sql r,
     audit_statement status execution_status is_initial sql ->
     P (EvRds sql r)) ->
  emits I P (update_audit_log svc status execution_status is_initial)
    (fun _ => True).
Proof.
  intros Hsql. unfold update_audit_log.
  apply emits_try; [| intros; now apply emits_ret].
  destruct is_initial.
  - eapply emits_bind; [apply emits_get_self |]. intros o _.
    eapply emits_bind; [apply emits_now |]. intros t _.
    apply emits_execute_with_retry. intros r. apply Hsql. now cbn.
  - eapply emits_bind; [apply emits_get_self |]. intros o _.
    eapply emits_bind; [apply emits_now |]. intros t _.
    eapply emits_bind; [apply emits_get_error_message |]. intros msg _.
    eapply emits_bind.
    + apply emits_execute_with_retry. intros r. apply Hsql. now cbn.
    + intros _ _. apply emits_execute_with_retry.
      intros r. apply Hsql. now cbn.
Qed.

Lemma emits_send_sns_message (status : string) (failed_sps : list ErrorItem) :
  (forall o msg subject r,
     I o -> notification status failed_sps msg ->
     P (EvPublish (sns_arn o) msg subject r)) ->
  emits I P (send_sns_message svc status failed_sps) (fun _ => True).
Proof.
  intros Hpub. unfold send_sns_message.
  apply emits_try; [| intros; now apply emits_ret].
  eapply emits_bind; [apply emits_get_self |]. intros o Ho.
  eapply emits_bind.
  - apply emits_call. intros r. apply Hpub; cbn; auto.
  - intros _ _. destruct failed_sps as [| item items]; cbn.
    + apply emits_call. intros r. apply Hpub; cbn; auto.
    + now apply emits_ret.
Qed.

Lemma emits_fetch_pending_sps :
  (forall region r, P (EvRds (SelectPendingSps region) r)) ->
  emits I P (fetch_pending_sps svc) (fun _ => True).
Proof.
  intros Hsql. unfold fetch_pending_sps.
  eapply emits_bind; [apply emits_get_self |]. intros o _.
  eapply emits_bind.
  - apply emits_for_each. intros attempt.
    unfold fetch_pending_sps_body. apply emits_try.
    + eapply emits_bind; [now apply emits_call |]. intros response _.
      eapply emits_bind; [apply emits_lift_sum |].
      intros; now apply emits_ret.
    + intros e. destruct (attempt =? max_retries)%Z; [apply emits_raise |].
      eapply emits_bind; [now apply emits_sleep |].
      intros; now apply emits_ret.
  - intros [rows |] _; now apply emits_ret.
Qed.

Lemma emits_check_query_status (fuel : nat) (query_id : string)
  (sleep_time : Z) :
  (forall r, P (EvDescribe query_id r)) ->
  emits I P (check_query_status svc fuel query_id sleep_time)
    (fun _ => True).
Proof.
  intros Hd. unfold check_query_status.
  eapply emits_bind.
  - apply emits_while. intros v.
    unfold check_query_status_body. apply emits_try.
    + eapply emits_bind; [now apply emits_call |].
      intros; now apply emits_ret.
    + intros e. eapply emits_bind; [now apply emits_sleep |].
      intros; now apply emits_ret.
  - intros [[[response_status |] query_status] | []] _;
      try (now apply emits_ret); apply emits_raise.
Qed.

Hypothesis I_set_error_message :
  forall m o, I o -> I (set_error_message m o).
Hypothesis I_set_failed_sp_entry :
  forall e o, I o -> I (set_failed_sp_entry e o).

Lemma emits_execute_sp_with_retries (fuel : nat)
  (sp_name file_source : string) :
  (forall sql r, P (EvRedshiftExecute sql r)) ->
  (forall query_id r, P (EvDescribe query_id r)) ->
  emits I P (execute_sp_with_retries svc fuel sp_name file_source)
    (fun _ => True).
Proof.
  intros Hx Hd. unfold execute_sp_with_retries.
  eapply emits_bind; [apply emits_get_self |]. intros o _.
  eapply emits_bind.
  - apply emits_while. intros retries.
    unfold execute_sp_with_retries_body. apply emits_try.
    + eapply emits_bind; [now apply emits_call |]. intros query_id _.
      eapply emits_bind; [now apply emits_check_query_status |].
      intros [response_status query_status] _.
      destruct (String.eqb query_status "FAILED").
      * destruct (retries + 1 <? RETRY_LIMIT o)%Z.
        -- eapply emits_bind; [now apply emits_sleep |].
           intros; now apply emits_ret.
        -- eapply emits_bind; [apply emits_modify_self; auto |]. intros _ _.
           eapply emits_bind; [apply emits_modify_self; auto |].
           intros; now apply emits_ret.
      * eapply emits_bind; [apply emits_modify_self; auto |].
        intros; now apply emits_ret.
    + intros e. now apply emits_ret.
  - intros [retries | b] _; now apply emits_ret.
Qed.

End Methods.

Section Main.

Context {W : Type} (svc : Services W).
Variables (I : Self -> Prop) (P : Event -> Prop).

Hypothesis P_sleep : forall seconds, P (EvSleep seconds).
Hypothesis P_rds : forall sql r, P (EvRds sql r).
Hypothesis P_execute : forall sql r, P (EvRedshiftExecute sql r).
Hypothesis P_describe : forall query_id r, P (EvDescribe query_id r).
Hypothesis P_publish :
  forall o msg subject r, I o -> P (EvPublish (sns_arn o) msg subject r).
Hypothesis I_set_error_message :
  forall m o, I o -> I (set_error_message m o).
Hypothesis I_set_failed_sp_entry :
  forall e o, I o -> I (set_failed_sp_entry e o).

Lemma emits_main_for_body (fuel : nat) (sp : string * string) :
  emits I P (main_for_body svc fuel sp) (fun _ => True).
Proof.
  destruct sp as [sp_name file_source]. unfold main_for_body.
  eapply emits_bind; [now apply emits_execute_sp_with_retries |].
  intros [|] _; cbn; [now apply emits_ret |].
  eapply emits_bind; [apply emits_update_audit_log; auto |]. intros _ _.
  eapply emits_bind; [apply emits_get_failed_sp_entry |]. intros entry _.
  eapply emits_bind; [apply emits_send_sns_message; auto |]. intros _ _.
  eapply emits_bind; [apply emits_get_self |]. intros o _.
  apply emits_raise.
Qed.

Lemma emits_main_handler (e : Exn) :
  emits I P (main_handler svc e) (fun _ => True).
Proof.
  unfold main_handler.
  eapply emits_bind; [apply emits_update_audit_log; auto |]. intros _ _.
  eapply emits_bind; [apply emits_send_sns_message; auto |]. intros _ _.
  apply emits_raise.
Qed.

Lemma emits_main (fuel : nat) : emits I P (main svc fuel) (fun _ => True).
Proof.
  unfold main. apply emits_try; [| apply emits_main_handler].
  eapply emits_bind; [apply emits_update_audit_log; auto |]. intros _ _.
  eapply emits_bind; [apply emits_fetch_pending_sps; auto |].
  intros [| sp sps] _.
  - eapply emits_bind; [apply emits_send_sns_message; auto |].
    intros; now apply emits_ret.
  - eapply emits_bind;
      [apply emits_for_each; intros; apply emits_main_for_body |].
    intros _ _.
    eapply emits_bind; [apply emits_update_audit_log; auto |]. intros _ _.
    eapply emits_bind; [apply emits_send_sns_message; auto |].
    intros; now apply emits_ret.
Qed.

End Main.

(** ** Facts on traces *)

Lemma submissions_app (tr1 tr2 : list Event) :
  submissions (tr1 ++ tr2) = submissions tr1 ++ submissions tr2.
Proof.
  induction tr1 as [| [] tr1 IH]; cbn; auto. now rewrite IH.
Qed.

Lemma published_targets (topic : string) (tr : list Event) :
  Forall (publishes_to topic) tr ->
  Forall (fun p => fst p = topic) (published tr).
Proof.
  induction 1 as [| ev tr Hev _ IH]; cbn; auto.
  destruct ev; cbn in *; auto.
Qed.


Lemma poll_events_no_submission (tr : list Event) :
  Forall poll_event tr -> submissions tr = [].
Proof.
  induction 1 as [| ev tr Hev _ IH]; cbn; auto.
  destruct ev; cbn in *; auto; contradiction.
Qed.


(** ** The audit recorder *)

Section Audit.

Context {W : Type} (svc : Services W).

Lemma total_execute_with_retry (sql : Sql) :
  total (execute_with_retry svc sql).
Proof.
  unfold execute_with_retry.
  apply total_bind; [| intros; apply total_ret].
  apply total_for_each. intros attempt.
  unfold execute_with_retry_body. apply total_try.
  - apply total_bind; [apply total_call | intros; apply total_ret].
  - intros e. destruct (attempt =? max_retries)%Z; [apply total_raise |].
    apply total_bind; [apply total_sleep | intros; apply total_ret].
Qed.

Lemma total_get_self : total (@get_self W).
Proof. intros s; discriminate. Qed.

Lemma total_now : total (now svc).
Proof. intros s; discriminate. Qed.

Lemma total_get_error_message : total (@get_error_message W).
Proof.
  apply total_bind; [apply total_get_self |].
  intros o. destruct (error_message o); [apply total_ret | apply total_raise].
Qed.

Lemma update_audit_log_ret (status : string)
  (execution_status : option string) (is_initial : bool) (s : St W) :
  fst (update_audit_log svc status execution_status is_initial s) = Ret tt /\
  self (snd (update_audit_log svc status execution_status is_initial s))
  = self s.
Proof.
  split.
  - unfold update_audit_log, try_except.
    match goal with
    | |- context [match ?b s with _ => _ end] =>
        assert (Hb : total b); [| specialize (Hb s); destruct (b s) as [[[] | e |] s1]]
    end; cbn in *; auto; try congruence.
    destruct is_initial.
    + apply total_bind; [apply total_get_self |]. intros o.
      apply total_bind; [apply total_now |]. intros t.
      apply total_execute_with_retry.
    + apply total_bind; [apply total_get_self |]. intros o.
      apply total_bind; [apply total_now |]. intros t.
      apply total_bind; [apply total_get_error_message |]. intros msg.
      apply total_bind; intros; apply total_execute_with_retry.
  - symmetry.
    refine (proj1 (emits_update_audit_log svc (eq (self s)) (fun _ => True) _
                     status execution_status is_initial _ s eq_refl)); auto.
Qed.


End Audit.

(** ** The notifier *)

Section Notifier.

Context {W : Type} (svc : Services W).

(** C10: in every run of the job, started on the object built by
    [__init__] from the job parameters, each message handed to SNS goes
    to the topic given as [users_sns_arn]; no message goes to the topic
    given as [sns_arn] when the two parameters differ.  This holds of the
    trace however the run ends. *)
Theorem notifications_go_to_users_sns_arn (today : string) (args : Args)
  (fuel : nat) (w : W) :
  let final := snd (main svc fuel (mkSt w [] (init today args))) in
  sns_arn (init today args) = arg_users_sns_arn args /\
  Forall (fun p => fst p = arg_users_sns_arn args) (published (trace final)) /\
  (arg_sns_arn args <> arg_users_sns_arn args ->
   ~ In (arg_sns_arn args) (map fst (published (trace final)))).
Proof.
  intros final.
  assert (H : Forall (fun p => fst p = arg_users_sns_arn args)
                (published (trace final))).
  { apply published_targets.
    destruct (emits_main svc (fun o => sns_arn o = arg_users_sns_arn args)
                (publishes_to (arg_users_sns_arn args))) with
      (fuel := fuel) (s := mkSt w [] (init today args))
      as (_ & (tl & Ht & Htl) & _); cbn; auto.
    subst final. rewrite Ht. exact Htl. }
  repeat split; auto.
  intros Hne Hin. apply in_map_iff in Hin. destruct Hin as (p & Hp & Hin).
  rewrite Forall_forall in H. specialize (H p Hin). congruence.
Qed.

End Notifier.

(** C10, on the scripted run where one procedure finishes. *)
Lemma notifications_go_to_users_sns_arn_witness :
  "arn:ops" <> "arn:users" /\
  ~ In "arn:ops"
      (map fst
         (published
            (trace
               (snd (main Scripted.services 5
                       (Scripted.start 3 Scenario.audit_up)))))).
Proof.
  assert (Hne : "arn:ops" <> "arn:users") by discriminate.
  split; [exact Hne |].
  exact (proj2 (proj2 (notifications_go_to_users_sns_arn Scripted.services
                         "2025-01-01" (Scripted.args 3) 5 Scenario.audit_up))
           Hne).
Defined.

(** ** The work-list provider *)



Section Provider.

Context {W : Type} (svc : Services W).



End Provider.


(** ** The retry controller *)

Section Retry.

Context {W : Type} (svc : Services W).

Lemma execute_sp_with_retries_body_step (fuel : nat) (o : Self)
  (sp_name file_source : string) (retries : Z) (s : St W) :
  execute_sp_with_retries_body svc fuel o sp_name file_source retries s =
    match attempt svc fuel sp_name s with
    | (Ret (response_status, query_status), s1) =>
        if String.eqb query_status "FAILED" then
          if (retries + 1 <? RETRY_LIMIT o)%Z then
            (Ret (Next (retries + 1)), slept svc 120 s1)
          else
            (Ret (Return false),
             with_self
               (fun o1 =>
                  set_error_message
                    (error_fragment (get_error response_status))
                    (set_failed_sp_entry
                       (mkFailedSpEntry sp_name (get_error response_status)
                          (data_source_label file_source)
                          (reportregionname o)) o1)) s1)
        else (Ret (Return true), with_self (set_error_message "Null") s1)
    | (Raise e, s1) => (Ret (Next (retries + 1)), s1)
    | (OutOfFuel, s1) => (OutOfFuel, s1)
    end.
Proof.
  unfold execute_sp_with_retries_body, attempt, try_except, bind.
  destruct (redshift_execute svc _ s) as [[query_id | e |] s0]; auto.
  destruct (check_query_status svc fuel query_id 120 s0)
    as [[[response_status query_status] | e |] s1]; auto.
  destruct (String.eqb query_status "FAILED"); auto.
  destruct (retries + 1 <? RETRY_LIMIT o)%Z; auto.
Qed.

(** One execution starts with the submission; what follows comes from
    the poller. *)
Lemma attempt_trace (fuel : nat) (sp_name : string) (s : St W) :
  exists answer polls,
    trace (snd (attempt svc fuel sp_name s))
    = trace s ++ EvRedshiftExecute (call_sql sp_name) answer
                 :: polls /\
    Forall poll_event polls /\
    self (snd (attempt svc fuel sp_name s)) = self s.
Proof.
  unfold attempt, bind, redshift_execute, call.
  destruct (redshift_execute_statement svc _ (world s))
    as [[e | query_id] w1]; cbn.
  - exists (inl e), []. auto.
  - set (s0 := mkSt w1 _ _).
    destruct (emits_check_query_status svc (eq (self s)) poll_event)
      with (fuel := fuel) (query_id := query_id) (sleep_time := 120) (s := s0)
      as (Hself & (tl & Ht & Hp) & _); cbn; auto.
    exists (inr query_id), tl.
    destruct (check_query_status svc fuel query_id 120 s0) as [[x | e |] s1];
      cbn in *; rewrite Ht; subst s0; cbn; rewrite <- app_assoc; auto.
Qed.


Lemma retry_loop_finished (fuel : nat) (o : Self)
  (sp_name file_source : string) (n : nat) (s s_k : St W) :
  failed_attempts svc fuel sp_name n s s_k ->
  forall (fuel' : nat) (retries : Z) response query_status s1,
    attempt svc fuel sp_name s_k = (Ret (response, query_status), s1) ->
    String.eqb query_status "FAILED" = false ->
    (0 <= retries)%Z ->
    (retries + Z.of_nat (S n) <= RETRY_LIMIT o)%Z ->
    (S n <= fuel')%nat ->
    while_ fuel' (fun r : Z => (r <? RETRY_LIMIT o)%Z)
      (execute_sp_with_retries_body svc fuel o sp_name file_source)
      retries s
    = (Ret (inr true), with_self (set_error_message "Null") s1) /\
    exists tl,
      trace s1 = trace s ++ tl /\
      retry_trace (call_sql sp_name) (S n) tl /\
      self s1 = self s.
Proof.
  induction 1 as [s | n s response0 s0 s_k Ha0 Hfa IH];
    intros fuel' retries response query_status s1 Ha Hst Hr HR Hfuel.
  - destruct fuel' as [| fuel']; [lia |].
    destruct (attempt_trace fuel sp_name s) as (answer & polls & Ht & Hp & Hs).
    rewrite Ha in Ht, Hs; cbn in Ht, Hs. split.
    + cbn [while_].
      replace (retries <? RETRY_LIMIT o)%Z with true
        by (symmetry; apply Z.ltb_lt; lia).
      unfold bind. rewrite execute_sp_with_retries_body_step, Ha, Hst.
      reflexivity.
    + exists (EvRedshiftExecute (call_sql sp_name) answer :: polls).
      repeat split; auto. now constructor.
  - destruct fuel' as [| fuel']; [lia |].
    destruct (attempt_trace fuel sp_name s) as (answer & polls & Ht & Hp & Hs).
    rewrite Ha0 in Ht, Hs; cbn in Ht, Hs.
    destruct (IH fuel' (retries + 1)%Z response query_status s1)
      as (Hw & tl & Ht' & Hrt & Hs'); auto; try lia.
    split.
    + cbn [while_].
      replace (retries <? RETRY_LIMIT o)%Z with true
        by (symmetry; apply Z.ltb_lt; lia).
      unfold bind at 1. rewrite execute_sp_with_retries_body_step, Ha0. cbn.
      replace (retries + 1 <? RETRY_LIMIT o)%Z with true
        by (symmetry; apply Z.ltb_lt; lia).
      exact Hw.
    + exists (EvRedshiftExecute (call_sql sp_name) answer :: polls ++ EvSleep 120 :: tl).
      repeat split.
      * rewrite Ht'. cbn. rewrite Ht. now rewrite <- !app_assoc.
      * now constructor.
      * rewrite Hs'. cbn. exact Hs.
Qed.

End Retry.

Section RetryClaim.

Context {W : Type} (svc : Services W).


End RetryClaim.


(** ** The batch runner *)

Section Runner.

Context {W : Type} (svc : Services W).

Lemma send_sns_message_ret (status : string) (failed_sps : list ErrorItem)
  (s : St W) :
  fst (send_sns_message svc status failed_sps s) = Ret tt.
Proof.
  unfold send_sns_message, try_except.
  match goal with
  | |- context [match ?b s with _ => _ end] =>
      assert (Hb : total b);
      [| specialize (Hb s); destruct (b s) as [[[] | e |] s1]]
  end; cbn in *; auto; try congruence.
  apply total_bind; [apply total_get_self |]. intros o.
  apply total_bind; [apply total_call |]. intros _.
  destruct (Z.of_nat (List.length failed_sps) =? 0)%Z;
    [apply total_call | apply total_ret].
Qed.

(** Any computation built from the methods only appends to the trace. *)
Lemma emits_appends {A} (m : M W A) (s : St W) :
  emits (fun _ => True) (fun _ => True) m (fun _ => True) ->
  exists tl, trace (snd (m s)) = trace s ++ tl.
Proof.
  intros H. destruct (H s I) as (_ & (tl & Ht & _) & _). eauto.
Qed.

Lemma for_each_cons {A R} (x : A) (xs : list A)
  (body : A -> M W (ctl unit R)) :
  for_each (x :: xs) body
  = bind (body x)
      (fun c =>
         match c with
         | Next _ => for_each xs body
         | Break _ => ret None
         | Return r => ret (Some r)
         end).
Proof. reflexivity. Qed.

Lemma execute_with_retry_first (sql : Sql) (s : St W) :
  exists answer tl,
    trace (snd (execute_with_retry svc sql s))
    = trace s ++ EvRds sql answer :: tl.
Proof.
  unfold execute_with_retry.
  change (range 1 (Z.to_nat max_retries)) with (1 :: [2; 3]).
  rewrite for_each_cons.
  assert (Hloop : emits (fun _ => True) (fun _ => True)
                    (for_each (R := unit) [2; 3]
                       (execute_with_retry_body svc sql)) (fun _ => True)).
  { apply emits_for_each; auto. intros attempt.
    unfold execute_with_retry_body. apply emits_try.
    - eapply emits_bind; [now apply emits_call |].
      intros; now apply emits_ret.
    - intros e'. destruct (attempt =? max_retries)%Z; [apply emits_raise |].
      eapply emits_bind; [now apply emits_sleep |].
      intros; now apply emits_ret. }
  remember (for_each [2; 3] (execute_with_retry_body svc sql)) as loop.
  clear Heqloop.
  unfold bind at 1 2.
  unfold execute_with_retry_body, try_except, bind at 1, rds_execute, call.
  destruct (rds_execute_statement svc sql (world s)) as [[e | a] w1]; cbn.
  - match goal with
    | |- context [loop ?st] =>
        destruct (emits_appends loop st Hloop) as (tl & Ht);
        exists (inl e), (EvSleep 3 :: tl);
        destruct (loop st) as [[[r |] | e' |] s2]
    end; cbn in *; rewrite Ht; now rewrite <- !app_assoc.
  - exists (inr a), []. reflexivity.
Qed.

Lemma update_audit_log_first (status : string)
  (execution_status : option string) (s : St W) (msg : string) :
  error_message (self s) = Some msg ->
  exists answer tl,
    trace (snd (update_audit_log svc status execution_status false s))
    = trace s
      ++ EvRds
           (UpdateTriggerLog (fmt_opt execution_status)
              (utcnow svc (world s)) msg (reportregionname (self s))
              (BatchRunDate (self s))) answer
         :: tl.
Proof.
  intros Hmsg.
  set (sql := UpdateTriggerLog _ _ _ _ _).
  destruct (execute_with_retry_first sql s) as (answer & tl & Ht).
  unfold update_audit_log, try_except.
  unfold bind at 1, get_self. unfold bind at 1, now.
  unfold bind at 1, get_error_message, bind at 1, get_self.
  rewrite Hmsg. unfold ret at 1. fold sql.
  unfold bind at 1.
  destruct (execute_with_retry svc sql s) as [[[] | e |] s1]; cbn in Ht |- *;
    try (exists answer, tl; exact Ht).
  set (sql2 := UpdateMaster _ _).
  destruct (emits_appends (execute_with_retry svc sql2) s1) as (tl2 & Ht2).
  { apply emits_execute_with_retry; auto. }
  exists answer, (tl ++ tl2).
  destruct (execute_with_retry svc sql2 s1) as [[[] | e |] s2]; cbn in *;
    rewrite Ht2, Ht, <- app_assoc; reflexivity.
Qed.





Lemma main_for_body_success (fuel : nat) (sp_name file_source : string)
  (s s1 : St W) :
  execute_sp_with_retries svc fuel sp_name file_source s = (Ret true, s1) ->
  main_for_body svc fuel (sp_name, file_source) s = (Ret (Next tt), s1).
Proof.
  intros Hx. unfold main_for_body, bind. now rewrite Hx.
Qed.

Lemma for_each_units_succeed (fuel : nat) (pre rest : list (string * string))
  (s1 s2 : St W) :
  units_succeed svc fuel pre s1 s2 ->
  for_each (R := bool) (pre ++ rest) (main_for_body svc fuel) s1
  = for_each rest (main_for_body svc fuel) s2.
Proof.
  induction 1 as [s | sp_name file_source pre s s' s2 Hx _ IH]; auto.
  cbn [app for_each]. unfold bind at 1.
  now rewrite (main_for_body_success _ _ _ _ _ Hx).
Qed.

End Runner.

Section FailFast.

Context {W : Type} (svc : Services W).

Lemma for_each_stops (fuel : nat) (pre post : list (string * string))
  (sp_name file_source : string) (s1 s2 : St W) (e : Exn) (s' : St W) :
  units_succeed svc fuel pre s1 s2 ->
  main_for_body svc fuel (sp_name, file_source) s2 = (Raise e, s') ->
  for_each (R := bool) (pre ++ (sp_name, file_source) :: post)
    (main_for_body svc fuel) s1
  = (Raise e, s').
Proof.
  intros Hpre Hb. rewrite (for_each_units_succeed svc fuel pre _ s1 s2 Hpre).
  rewrite for_each_cons. unfold bind. now rewrite Hb.
Qed.


End FailFast.


(** ** Behaviour of the code where it departs from the specification *)

Section Departures.

Context {W : Type} (svc : Services W).

(** C3 (what the code does): when the only execution made ends with the
    status ABORTED, [execute_sp_with_retries] returns [True] at once and
    sets [self.error_message] to "Null": the status is neither counted
    as an attempt nor retried nor recorded as a failure. *)
Theorem aborted_is_reported_as_success (fuel : nat)
  (sp_name file_source : string) (s s1 : St W) (response : StatementStatus) :
  (1 <= RETRY_LIMIT (self s))%Z ->
  (1 <= fuel)%nat ->
  attempt svc fuel sp_name s = (Ret (response, "ABORTED"), s1) ->
  execute_sp_with_retries svc fuel sp_name file_source s
  = (Ret true, mkSt (world s1) (trace s1) (set_error_message "Null" (self s))).
Proof.
  intros HR Hfuel Ha.
  destruct (retry_loop_finished svc fuel (self s) sp_name file_source
              0 s s (fa_none svc fuel sp_name s) fuel 0%Z response "ABORTED" s1)
    as (Hw & tl & _ & _ & Hs); auto; try lia.
  unfold execute_sp_with_retries, bind at 1, get_self.
  unfold bind. rewrite Hw. cbn. unfold with_self. now rewrite Hs.
Qed.

(** C4 (what the code does): when the first status check answers a
    status that is not terminal, [check_query_status] makes the next
    status check at once: no pause separates the two calls. *)
Theorem check_query_status_polls_without_pause (fuel : nat)
  (query_id : string) (sleep_time : Z) (s : St W)
  (response_status : StatementStatus) (w1 : W) :
  describe_statement svc query_id (world s) = (inr response_status, w1) ->
  is_terminal (Status response_status) = false ->
  exists answer tl,
    trace (snd (check_query_status svc (S (S fuel)) query_id sleep_time s))
    = trace s
      ++ EvDescribe query_id (inr response_status)
         :: EvDescribe query_id answer :: tl.
Proof.
  intros Hd Hnt. unfold check_query_status.
  set (cond := fun v : PollVars => negb (is_terminal (snd v))).
  set (body := check_query_status_body svc query_id sleep_time).
  assert (Hbody : forall v, emits (fun _ => True) (fun _ => True) (body v)
                              (fun _ => True)).
  { intros v. subst body. unfold check_query_status_body. apply emits_try.
    - eapply emits_bind; [now apply emits_call |].
      intros; now apply emits_ret.
    - intros e. eapply emits_bind; [now apply emits_sleep |].
      intros; now apply emits_ret. }
  set (s1 := mkSt w1 (trace s ++ [EvDescribe query_id (inr response_status)])
               (self s)).
  assert (H1 : body (None, "SUBMITTED") s
               = (Ret (Next (Some response_status, Status response_status)),
                  s1)).
  { subst body. unfold check_query_status_body, try_except, bind, describe,
      call. now rewrite Hd. }
  set (v1 := (Some response_status, Status response_status) : PollVars).
  assert (H2 : exists answer tl,
             trace (snd (while_ (R := unit) (S fuel) cond body v1 s1))
             = trace s1 ++ EvDescribe query_id answer :: tl).
  { cbn [while_]. subst cond v1. cbn [snd]. rewrite Hnt. cbn [negb].
    set (cond := fun v : PollVars => negb (is_terminal (snd v))).
    unfold bind.
    destruct (describe_statement svc query_id (world s1)) as [a2 w2] eqn:Hd2.
    assert (Hb : exists c s2 tl0,
               body (Some response_status, Status response_status) s1
               = (Ret (Next c), s2) /\
               trace s2 = trace s1 ++ EvDescribe query_id a2 :: tl0).
    { subst body. unfold check_query_status_body, try_except, bind, describe,
        call. rewrite Hd2. destruct a2 as [e | st2]; cbn.
      - eexists _, _, [EvSleep sleep_time]. split; [reflexivity |].
        now rewrite <- app_assoc.
      - eexists _, _, []. split; reflexivity. }
    destruct Hb as (c & s2 & tl0 & Hb & Ht2). rewrite Hb.
    destruct (emits_appends (while_ (R := unit) fuel cond body c) s2)
      as (tl & Ht).
    { now apply emits_while. }
    exists a2, (tl0 ++ tl). rewrite Ht, Ht2. now rewrite <- app_assoc. }
  destruct H2 as (answer & tl & Ht). exists answer, tl.
  assert (H0 : while_ (R := unit) (S (S fuel)) cond body (None, "SUBMITTED") s
               = while_ (S fuel) cond body v1 s1).
  { change (while_ (S (S fuel)) cond body (None, "SUBMITTED") s)
      with (bind (body (None, "SUBMITTED"))
              (fun c =>
                 match c with
                 | Next l' => while_ (R := unit) (S fuel) cond body l'
                 | Break l' => ret (inl l')
                 | Return r => ret (inr r)
                 end) s).
    unfold bind. now rewrite H1. }
  unfold bind. rewrite H0.
  destruct (while_ (S fuel) cond body v1 s1)
    as [[[[[st |] qs] | []] | e |] s2]; cbn in *; rewrite Ht; subst s1; cbn;
    now rewrite <- app_assoc.
Qed.

(** C6 (what the code does): when the work list fetched is empty,
    [main] returns [True], and after the fetch it only publishes
    messages that report no failure: it sends no statement to the audit
    store, so neither the status Completed nor an end time is written. *)
Theorem main_empty_work_list (fuel : nat) (s s1 : St W) :
  fetch_pending_sps svc (snd (update_audit_log svc "InProgress" None true s))
  = (Ret [], s1) ->
  exists s' tl,
    main svc fuel s = (Ret true, s') /\
    trace s' = trace s1 ++ tl /\
    Forall success_notice tl /\
    rds_statements tl = [].
Proof.
  intros Hfetch. unfold main, try_except. unfold bind at 1.
  pose proof (update_audit_log_ret svc "InProgress" None true s) as [Hret _].
  destruct (update_audit_log svc "InProgress" None true s)
    as [[[] | e0 |] s0]; cbn [fst snd] in Hret, Hfetch; try discriminate.
  unfold bind at 1. rewrite Hfetch.
  pose proof (send_sns_message_ret svc "Succeeded" [] s1) as Hs.
  destruct (emits_send_sns_message svc (fun _ => True) success_notice
              "Succeeded" []) with (s := s1)
    as (_ & (tl & Ht & Hp) & _); auto.
  { intros o msg subject r _. destruct msg; cbn; [intros [-> _] |]; auto. }
  unfold bind at 1.
  destruct (send_sns_message svc "Succeeded" [] s1) as [[[] | e |] s2];
    cbn in Hs, Ht; try discriminate.
  cbn. exists s2, tl. repeat split; auto.
  clear - Hp. induction Hp as [| ev tl Hev _ IH]; auto.
  destruct ev; cbn in *; auto; contradiction.
Qed.

End Departures.

(** ** The scenarios, run *)

Import Scripted Scenario.

(** C3, on the engine that reports ABORTED. *)
Lemma aborted_is_reported_as_success_witness :
  let run :=
    execute_sp_with_retries services 5 "SP_A" "SPDST" (start 3 aborted) in
  fst run = Ret true /\
  error_message (self (snd run)) = Some "Null" /\
  failed_sp_entry (self (snd run)) = None /\
  trace (snd run)
  = [EvRedshiftExecute "CALL SP_A;" (inr "q");
     EvDescribe "q" (inr (mkStatus "ABORTED" None))].
Proof.
  intros run. subst run.
  let r := eval vm_compute in (attempt services 5 "SP_A" (start 3 aborted)) in
  match r with
  | (Ret (?response, _), ?s1) =>
      rewrite (aborted_is_reported_as_success services 5 "SP_A" "SPDST"
                 (start 3 aborted) s1 response)
  end.
  - repeat split; reflexivity.
  - cbn; lia.
  - lia.
  - vm_compute. reflexivity.
Defined.

(** C4, on the engine that answers STARTED, then FINISHED. *)
Lemma check_query_status_polls_without_pause_witness :
  exists answer tl,
    trace (snd (check_query_status services 5 "q" 120
                  (start 3 running_then_finished)))
    = EvDescribe "q" (inr (mkStatus "STARTED" None))
      :: EvDescribe "q" answer :: tl /\
    sleeps (trace (snd (check_query_status services 5 "q" 120
                          (start 3 running_then_finished)))) = [].
Proof.
  destruct (check_query_status_polls_without_pause services 3 "q" 120
              (start 3 running_then_finished) (mkStatus "STARTED" None)
              (mkWorld [] [] [status "FINISHED"] [] 0))
    as (answer & tl & Ht); [reflexivity | reflexivity |].
  exists answer, tl. split; [exact Ht | reflexivity].
Defined.

(** C6, on the store that answers no row. *)
Lemma main_empty_work_list_witness :
  let run := main services 5 (start 3 empty_work_list) in
  fst run = Ret true /\
  exists tl,
    trace (snd run)
    = [EvRds (UpdateMasterInitial 0 "InProgress" "EMEA") ok;
       EvRds (SelectPendingSps "EMEA") (rows [])] ++ tl /\
    Forall success_notice tl /\
    rds_statements tl = [].
Proof.
  intros run. subst run.
  let s1 := eval vm_compute in
      (snd (fetch_pending_sps services
              (snd (update_audit_log services "InProgress" None true
                      (start 3 empty_work_list))))) in
  destruct (main_empty_work_list services 5 (start 3 empty_work_list) s1)
    as (s' & tl & Hrun & Ht & Hp & Hr).
  - vm_compute. reflexivity.
  - rewrite Hrun. split; [reflexivity |]. exists tl. auto.
Defined.


(** C7 (what the code does): with the retry limit 2 and an engine that
    rejects both submissions, [execute_sp_with_retries] makes the two
    submissions without a pause and returns [False] with neither
    [self.failed_sp_entry] nor [self.error_message] set.  [main] then
    fails on reading [self.failed_sp_entry]: it raises AttributeError,
    writes no status to the audit store and publishes only the message
    "Unexpected error". *)
Theorem submit_exceptions_leave_no_failure_record :
  let run :=
    execute_sp_with_retries services 5 "SP_A" "SPDST"
      (start 2 submit_rejected) in
  let job := main services 5 (start 2 submit_rejected) in
  let rejected := inl (mkExn "ClientError" "connection reset") in
  (fst run = Ret false /\
   trace (snd run)
   = [EvRedshiftExecute "CALL SP_A;" rejected;
      EvRedshiftExecute "CALL SP_A;" rejected] /\
   failed_sp_entry (self (snd run)) = None /\
   error_message (self (snd run)) = None) /\
  (fst job = Raise (attribute_error "failed_sp_entry") /\
   filter closes_run (rds_statements (trace (snd job))) = [] /\
   published (trace (snd job))
   = [("arn:users",
       StatusMessage "dev" [ErrorText "Unexpected error"] "Failed" "EMEA"
         "job" "/aws-glue/jobs/output" "jr_1")]).
Proof. repeat split; reflexivity. Qed.

(** C8 (what the code does): in scenario A, [main] raises for SP_B
    after submitting SP_A once and SP_B three times, the audit store
    gets the status Failed with the error fragment of the last error of
    SP_B, and the notification with the failure record of SP_B is
    published; then the [except] clause of [main] writes the same audit
    statements again and publishes a second failure notification, whose
    error is "Unexpected error". *)
Theorem scenario_A_sends_two_failure_notifications :
  let job := main services 5 (start 3 scenario_A) in
  fst job
  = Raise
      (mkExn "Exception"
         "SP SP_B failed after 3 retries in dev - EMEA. Job terminating.") /\
  submissions (trace (snd job))
  = ["CALL SP_A;"; "CALL SP_B;"; "CALL SP_B;"; "CALL SP_B;"] /\
  error_message (self (snd job)) = Some (error_fragment "ERROR: e3") /\
  filter closes_run (rds_statements (trace (snd job)))
  = [UpdateTriggerLog "Failed" 240 " e3" "EMEA" "2025-01-01";
     UpdateMaster "Failed" "EMEA";
     UpdateTriggerLog "Failed" 240 " e3" "EMEA" "2025-01-01";
     UpdateMaster "Failed" "EMEA"] /\
  published (trace (snd job))
  = [("arn:users",
      StatusMessage "dev"
        [FailedSp (mkFailedSpEntry "SP_B" "ERROR: e3" "SPDST/Others" "EMEA")]
        "Failed" "EMEA" "job" "/aws-glue/jobs/output" "jr_1");
     ("arn:users",
      StatusMessage "dev" [ErrorText "Unexpected error"] "Failed" "EMEA"
        "job" "/aws-glue/jobs/output" "jr_1")].
Proof. repeat split; reflexivity. Qed.

(** * Further properties of the code *)

(** ** The helpers *)

(** X1: [error_fragment] cuts the message at its first colon: a message
    without a colon is kept whole; otherwise the message is a prefix
    without a colon, the colon, and the fragment returned (which keeps
    the blank that follows the colon and any later colon). *)
Theorem error_fragment_after_first_colon (error_msg : string) :
  (has_colon error_msg = false /\ error_fragment error_msg = error_msg) \/
  (exists prefix,
     has_colon prefix = false /\
     error_msg = (prefix ++ ":" ++ error_fragment error_msg)%string).
Proof.
  unfold error_fragment.
  induction error_msg as [| c s IH]; cbn; auto.
  destruct (Ascii.eqb c ":") eqn:Hc.
  - right. exists EmptyString. split; auto.
    apply Ascii.eqb_eq in Hc. now subst.
  - destruct (has_colon s) eqn:Hs; auto.
    right. destruct IH as [[H _] | (prefix & Hp & Heq)]; [discriminate |].
    exists (String c prefix). cbn. rewrite Hc. split; auto.
    f_equal. exact Heq.
Qed.

(** X2: a row is read exactly when its first two fields both hold a
    'stringValue', whatever follows them; the pair read is those two
    strings. *)
Theorem parse_row_reads_two_strings (row : Row) (name source : string) :
  parse_row row = inr (name, source) <->
  exists rest,
    row = mkField (Some name) :: mkField (Some source) :: rest.
Proof.
  split.
  - destruct row as [| [[n |]] [| [[v |]] rest]]; cbn; try discriminate.
    intros H. inversion H; subst. now exists rest.
  - intros (rest & ->). reflexivity.
Qed.

(** X3: the rows of an answer are read all or none: the reading
    succeeds exactly when every row can be read, it then yields one pair
    per row, and when it fails the exception is that of a row of the
    answer. *)
Theorem parse_records_all_or_nothing (rs : list Row) :
  ((exists rows, parse_records rs = inr rows) <->
   Forall (fun row => exists p, parse_row row = inr p) rs) /\
  (forall rows,
     parse_records rs = inr rows -> List.length rows = List.length rs) /\
  (forall e,
     parse_records rs = inl e -> exists row, In row rs /\ parse_row row = inl e).
Proof.
  induction rs as [| row rs (IH1 & IH2 & IH3)]; cbn.
  - repeat split; auto.
    + eauto.
    + intros rows H. now inversion H.
    + discriminate.
  - destruct (parse_row row) as [e | p] eqn:Hrow.
    + repeat split.
      * intros [rows H]; discriminate.
      * intros H. inversion H as [| ? ? [p Hp] _]; subst. congruence.
      * discriminate.
      * intros e' H. inversion H; subst. eauto.
    + destruct (parse_records rs) as [e | ps] eqn:Hrs.
      * repeat split.
        -- intros [rows H]; discriminate.
        -- intros H. inversion H as [| ? ? _ Hall]; subst.
           apply IH1 in Hall. destruct Hall as [rows Hr]. discriminate.
        -- discriminate.
        -- intros e' H. inversion H; subst.
           destruct (IH3 e' eq_refl) as (row' & Hin & Hp). eauto.
      * repeat split.
        -- intros _. constructor; eauto. apply IH1. eauto.
        -- eauto.
        -- intros rows H. inversion H; subst. cbn. f_equal. now apply IH2.
        -- discriminate.
Qed.

(** ** The notifier and the audit recorder *)

Section NotifierAudit.

Context {W : Type} (svc : Services W).

(** X4: [send_sns_message] is best effort: it never raises and leaves
    the job object as it was.  It publishes the status message to
    [self.sns_arn]; the message for the users follows only when
    [failed_sps] is empty and the first publication went through, so a
    refused status message also costs the users their success notice. *)
Theorem send_sns_message_best_effort (status : string)
  (failed_sps : list ErrorItem) (s : St W) :
  let r := send_sns_message svc status failed_sps s in
  let o := self s in
  fst r = Ret tt /\
  self (snd r) = self s /\
  exists a1,
    (trace (snd r) = trace s ++ [status_event o status failed_sps a1] /\
     (failed_sps <> [] \/ refused a1)) \/
    (failed_sps = [] /\ a1 = inr tt /\
     exists a2,
       trace (snd r)
       = trace s ++ [status_event o status [] a1; success_event o a2]).
Proof.
  intros r o. subst r o.
  unfold send_sns_message, try_except, bind, get_self, publish, call.
  destruct (sns_publish svc (sns_arn (self s)) _ _ (world s))
    as [[e | []] w1]; cbn.
  - repeat split. exists (inl e). left. split; [reflexivity | now right].
  - destruct failed_sps as [| item items]; cbn.
    + match goal with
      | |- context [sns_publish svc ?t ?m ?sub w1] =>
          destruct (sns_publish svc t m sub w1) as [[e | []] w2]
      end; cbn; repeat split; exists (inr tt); right; repeat split;
        eexists; now rewrite <- app_assoc.
    + repeat split. exists (inr tt). left.
      split; [reflexivity | left; discriminate].
Qed.

Lemma execute_with_retry_body_step (sql : Sql) (attempt : Z) (s : St W) :
  let a := fst (rds_execute_statement svc sql (world s)) in
  let s1 :=
    mkSt (snd (rds_execute_statement svc sql (world s)))
      (trace s ++ [EvRds sql a]) (self s) in
  execute_with_retry_body svc sql attempt s =
    match a with
    | inr _ => (Ret (Break tt), s1)
    | inl _ =>
        if (attempt =? max_retries)%Z then (Raise rds_failed, s1)
        else (Ret (Next tt), slept svc (3 * attempt) s1)
    end.
Proof.
  unfold execute_with_retry_body, try_except, bind, rds_execute, call.
  destruct (rds_execute_statement svc sql (world s)) as [[e | response] w1];
    cbn; auto.
  destruct (attempt =? max_retries)%Z; reflexivity.
Qed.

(** The run of [execute_with_retry]: the answers it got, and where it
    stopped. *)
Lemma execute_with_retry_run (sql : Sql) (s : St W) :
  exists answers s',
    ((exists pre response,
        answers = pre ++ [inr response] /\ (List.length pre <= 2)%nat /\
        Forall refused pre /\
        execute_with_retry svc sql s = (Ret tt, s')) \/
     (List.length answers = 3%nat /\ Forall refused answers /\
      execute_with_retry svc sql s = (Raise rds_failed, s'))) /\
    trace s' = trace s ++ backoff sql 1 answers /\
    self s' = self s.
Proof.
  unfold execute_with_retry.
  change (range 1 (Z.to_nat max_retries)) with [1; 2; 3].
  unfold for_each, bind.
  rewrite execute_with_retry_body_step.
  set (a1 := fst (rds_execute_statement svc sql (world s))).
  destruct a1 as [e1 | r1] eqn:E1.
  2:{ exists [inr r1]. eexists. split.
      - left. exists [], r1. repeat split; auto.
      - split; reflexivity. }
  change (1 =? max_retries) with false. cbv beta iota.
  rewrite execute_with_retry_body_step. cbn [world trace self slept].
  set (w2 := time_sleep svc (3 * 1) _).
  set (a2 := fst (rds_execute_statement svc sql w2)).
  destruct a2 as [e2 | r2] eqn:E2.
  2:{ exists [inl e1; inr r2]. eexists. split.
      - left. exists [inl e1], r2. repeat split; cbn; auto; repeat (constructor; cbn; auto).
      - cbn. split; [now rewrite <- !app_assoc | reflexivity]. }
  change (2 =? max_retries) with false. cbv beta iota.
  rewrite execute_with_retry_body_step. cbn [world trace self slept].
  set (w3 := time_sleep svc (3 * 2) _).
  set (a3 := fst (rds_execute_statement svc sql w3)).
  destruct a3 as [e3 | r3] eqn:E3.
  2:{ exists [inl e1; inl e2; inr r3]. eexists. split.
      - left. exists [inl e1; inl e2], r3. repeat split; cbn; auto; repeat (constructor; cbn; auto).
      - cbn. split; [now rewrite <- !app_assoc | reflexivity]. }
  change (3 =? max_retries) with true. cbv beta iota.
  exists [inl e1; inl e2; inl e3]. eexists. split.
  - right. repeat split; cbn; auto; repeat (constructor; cbn; auto).
  - cbn. split; [now rewrite <- !app_assoc | reflexivity].
Qed.

(** X5: [execute_with_retry] sends its statement one to three times,
    pausing 3 seconds after a refused first call and 6 seconds after a
    refused second call, and stops at the first call that goes through;
    it raises RuntimeError exactly when the three calls were refused,
    and it sends nothing else. *)
Theorem execute_with_retry_backoff (sql : Sql) (s : St W) :
  let r := execute_with_retry svc sql s in
  exists answers,
    trace (snd r) = trace s ++ backoff sql 1 answers /\
    (1 <= List.length answers <= 3)%nat /\
    Forall refused (removelast answers) /\
    (fst r = Ret tt <-> ~ refused (last answers (inr (mkRdsResponse [])))) /\
    (fst r = Raise rds_failed <->
     (List.length answers = 3%nat /\ Forall refused answers)) /\
    (fst r = Ret tt \/ fst r = Raise rds_failed).
Proof.
  intros r. subst r.
  destruct (execute_with_retry_run sql s)
    as (answers & s' & [(pre & response & -> & Hlen & Hpre & Hrun)
                       | (Hlen & Hall & Hrun)] & Ht & _);
    [exists (pre ++ [inr response]) | exists answers]; rewrite Hrun; cbn.
  - split; [exact Ht |]. rewrite length_app, removelast_last, last_last. cbn.
    repeat split; auto; try lia; try discriminate.
    intros [_ Hf]. apply Forall_app in Hf. destruct Hf as [_ Hf].
    now inversion Hf.
  - destruct answers as [| a1 [| a2 [| a3 [| a4 rest]]]]; try discriminate.
    inversion Hall as [| ? ? Ha1 H1]; subst.
    inversion H1 as [| ? ? Ha2 H2]; subst.
    inversion H2 as [| ? ? Ha3 _]; subst. cbn.
    repeat split; auto; try lia; try discriminate.
    intros Hn. contradiction.
Qed.

(** X6: called to close the run while [self.error_message] has never
    been assigned, [update_audit_log] does nothing at all: building the
    first statement raises AttributeError, which is swallowed, and no
    statement reaches the audit store. *)
Theorem update_audit_log_without_error_message (status : string)
  (execution_status : option string) (s : St W) :
  error_message (self s) = None ->
  update_audit_log svc status execution_status false s = (Ret tt, s).
Proof.
  intros H. unfold update_audit_log, try_except, bind, get_self, now,
    get_error_message, bind, get_self. rewrite H. reflexivity.
Qed.

(** X7: called to close the run with [self.error_message] set,
    [update_audit_log] first sends the update of the trigger log, with
    the time of the call and the message; the update of the master
    table is sent only if that first update went through: when its three
    tries are refused, the master table is never touched. *)
Theorem update_audit_log_statements_in_order (status : string)
  (execution_status : option string) (s : St W) (msg : string) :
  error_message (self s) = Some msg ->
  let sql1 :=
    UpdateTriggerLog (fmt_opt execution_status) (utcnow svc (world s)) msg
      (reportregionname (self s)) (BatchRunDate (self s)) in
  let sql2 := UpdateMaster status (reportregionname (self s)) in
  let r := update_audit_log svc status execution_status false s in
  exists answers1,
    (List.length answers1 = 3%nat /\ Forall refused answers1 /\
     trace (snd r) = trace s ++ backoff sql1 1 answers1) \/
    (exists pre response answers2,
       answers1 = pre ++ [inr response] /\ Forall refused pre /\
       (1 <= List.length answers2 <= 3)%nat /\
       trace (snd r)
       = trace s ++ backoff sql1 1 answers1 ++ backoff sql2 1 answers2).
Proof.
  intros Hmsg sql1 sql2 r. remember r as r0 eqn:Hr. subst r.
  unfold update_audit_log, try_except in Hr.
  unfold bind at 1, get_self in Hr. unfold bind at 1, now in Hr.
  unfold bind at 1, get_error_message, bind at 1, get_self in Hr.
  rewrite Hmsg in Hr. unfold ret at 1 in Hr. fold sql1 sql2 in Hr.
  unfold bind at 1 in Hr.
  destruct (execute_with_retry_run sql1 s)
    as (answers1 & s1
        & [(pre & response & -> & Hlen & Hpre & Hrun) | (Hlen & Hall & Hrun)]
        & Ht1 & Hs1);
    rewrite Hrun in Hr.
  - exists (pre ++ [inr response]). right.
    destruct (execute_with_retry_run sql2 s1)
      as (answers2 & s2
          & [(pre2 & response2 & -> & Hlen2 & _ & Hrun2)
            | (Hlen2 & _ & Hrun2)] & Ht2 & _);
      rewrite Hrun2 in Hr; subst r0; cbn.
    + exists pre, response, (pre2 ++ [inr response2]).
      repeat split; auto.
      * rewrite length_app; cbn; lia.
      * rewrite length_app; cbn; lia.
      * rewrite Ht2, Ht1. now rewrite <- app_assoc.
    + exists pre, response, answers2. repeat split; auto; try lia.
      rewrite Ht2, Ht1. now rewrite <- app_assoc.
  - exists answers1. left. subst r0. cbn. auto.
Qed.

End NotifierAudit.

(** X6, on the object [__init__] builds. *)
Lemma update_audit_log_without_error_message_witness :
  update_audit_log services "Failed" (Some "Failed") false
    (start 3 audit_up)
  = (Ret tt, start 3 audit_up).
Proof.
  apply (update_audit_log_without_error_message services). reflexivity.
Defined.

(** X7, on a store that refuses the three tries of the first update. *)
Lemma update_audit_log_statements_in_order_witness :
  let s :=
    mkSt (mkWorld [boom RdsResponse "timeout"; boom RdsResponse "timeout";
                   boom RdsResponse "timeout"] [] [] [] 0) []
      (set_error_message "Null" (init "2025-01-01" (args 3))) in
  let r := update_audit_log services "Completed" (Some "Finished") false s in
  exists answers1,
    (List.length answers1 = 3%nat /\ Forall refused answers1 /\
     trace (snd r)
     = backoff (UpdateTriggerLog "Finished" 0 "Null" "EMEA" "2025-01-01") 1
         answers1) \/
    (exists pre response answers2,
       answers1 = pre ++ [inr response] /\ Forall refused pre /\
       (1 <= List.length answers2 <= 3)%nat /\
       trace (snd r)
       = backoff (UpdateTriggerLog "Finished" 0 "Null" "EMEA" "2025-01-01") 1
           answers1
         ++ backoff (UpdateMaster "Completed" "EMEA") 1 answers2).
Proof.
  intros s r.
  exact (update_audit_log_statements_in_order services "Completed"
           (Some "Finished") s "Null" eq_refl).
Defined.

(** ** The completion poller *)

Section Poller.

Context {W : Type} (svc : Services W).

Lemma check_query_status_body_step (query_id : string) (sleep_time : Z)
  (v : PollVars) (s : St W) :
  let a := fst (describe_statement svc query_id (world s)) in
  let s1 :=
    mkSt (snd (describe_statement svc query_id (world s)))
      (trace s ++ [EvDescribe query_id a]) (self s) in
  check_query_status_body svc query_id sleep_time v s =
    match a with
    | inr st => (Ret (Next (Some st, Status st)), s1)
    | inl e =>
        (Ret (Next (Some (mkStatus "FAILED" (Some (exn_text e))), "FAILED")),
         slept svc sleep_time s1)
    end.
Proof.
  unfold check_query_status_body, try_except, bind, describe, call.
  destruct (describe_statement svc query_id (world s)) as [[e | st] w1];
    reflexivity.
Qed.

Lemma poll_result_terminal (a : Exn + StatementStatus) :
  ~ still_running a ->
  is_terminal (snd (poll_result a)) = true /\
  Status (fst (poll_result a)) = snd (poll_result a).
Proof.
  destruct a as [e | st]; cbn; [auto |].
  destruct (is_terminal (Status st)); [auto |]. intros H. now contradiction H.
Qed.

(** The loop of the poller, from local variables that call for a
    status check. *)
Lemma poll_loop (query_id : string) (sleep_time : Z) (fuel : nat) :
  forall (v : PollVars) (s : St W),
    is_terminal (snd v) = false ->
    exists answers s',
      ((exists pre a,
          answers = pre ++ [a] /\ Forall still_running pre /\
          ~ still_running a /\
          while_ (R := unit) fuel
            (fun v : PollVars => negb (is_terminal (snd v)))
            (check_query_status_body svc query_id sleep_time) v s
          = (Ret (inl (Some (fst (poll_result a)), snd (poll_result a))), s'))
       \/
       (Forall still_running answers /\ List.length answers = fuel /\
        while_ (R := unit) fuel
          (fun v : PollVars => negb (is_terminal (snd v)))
          (check_query_status_body svc query_id sleep_time) v s
        = (OutOfFuel, s'))) /\
      trace s' = trace s ++ poll_events query_id sleep_time answers /\
      self s' = self s.
Proof.
  induction fuel as [| fuel IH]; intros v s Hv; cbn [while_]; rewrite Hv;
    cbn [negb].
  - exists [], s. split; [right; auto |]. cbn. now rewrite app_nil_r.
  - unfold bind. rewrite check_query_status_body_step.
    destruct (describe_statement svc query_id (world s)) as [[e | st] w1];
      cbn [fst snd].
    + exists [inl e]. eexists. split.
      * left. exists [], (inl e). repeat split; auto.
        destruct fuel; reflexivity.
      * cbn. split; [now rewrite <- app_assoc | reflexivity].
    + destruct (is_terminal (Status st)) eqn:Hst.
      * exists [inr st]. eexists. split.
        -- left. exists [], (inr st). repeat split; auto.
           ++ cbn. congruence.
           ++ destruct fuel; cbn [while_ snd]; rewrite Hst; reflexivity.
        -- cbn. split; reflexivity.
      * set (s1 := mkSt w1 _ _).
        destruct (IH (Some st, Status st) s1 Hst)
          as (answers & s' & Hcase & Ht & Hs).
        exists (inr st :: answers), s'. split.
        -- destruct Hcase as [(pre & a & -> & Hpre & Ha & Hrun)
                             | (Hall & Hlen & Hrun)].
           ++ left. exists (inr st :: pre), a. repeat split; auto.
           ++ right. repeat split; auto. cbn. now rewrite Hlen.
        -- rewrite Ht, Hs. subst s1. cbn. now rewrite <- app_assoc.
Qed.

(** X8: [check_query_status] repeats the status check until an answer
    ends the poll: a terminal status, which is returned with the answer,
    or an exception, after which it pauses once and returns the status
    FAILED with the text of the exception as error.  Every earlier
    answer was a status that is not terminal, and was followed at once
    by the next check.  It never raises and leaves the job object as it
    was; with the fuel used up by non-terminal answers it has not
    returned. *)
Theorem check_query_status_run (fuel : nat) (query_id : string)
  (sleep_time : Z) (s : St W) :
  let r := check_query_status svc fuel query_id sleep_time s in
  exists answers,
    trace (snd r) = trace s ++ poll_events query_id sleep_time answers /\
    self (snd r) = self s /\
    ((exists pre a,
        answers = pre ++ [a] /\ Forall still_running pre /\
        ~ still_running a /\ fst r = Ret (poll_result a)) \/
     (Forall still_running answers /\ List.length answers = fuel /\
      fst r = OutOfFuel)).
Proof.
  intros r. subst r. unfold check_query_status, bind.
  destruct (poll_loop query_id sleep_time fuel (None, "SUBMITTED") s eq_refl)
    as (answers & s' & [(pre & a & -> & Hpre & Ha & Hrun)
                       | (Hall & Hlen & Hrun)] & Ht & Hs);
    rewrite Hrun; cbn.
  - exists (pre ++ [a]). repeat split; auto.
    left. exists pre, a. repeat split; auto. now destruct (poll_result a).
  - exists answers. repeat split; auto.
Qed.

(** X9: whatever [check_query_status] returns is a terminal status,
    FINISHED, FAILED or ABORTED, and it is the status field of the
    response returned with it; the method raises no exception. *)
Theorem check_query_status_returns_terminal (fuel : nat) (query_id : string)
  (sleep_time : Z) (s : St W) :
  let r := check_query_status svc fuel query_id sleep_time s in
  (forall response_status query_status,
     fst r = Ret (response_status, query_status) ->
     Status response_status = query_status /\
     (query_status = "FINISHED" \/ query_status = "FAILED"
      \/ query_status = "ABORTED")) /\
  (forall e, fst r <> Raise e).
Proof.
  intros r. subst r. unfold check_query_status, bind.
  destruct (poll_loop query_id sleep_time fuel (None, "SUBMITTED") s eq_refl)
    as (answers & s' & [(pre & a & -> & Hpre & Ha & Hrun)
                       | (Hall & Hlen & Hrun)] & _ & _);
    rewrite Hrun; cbn; split; try discriminate.
  intros response_status query_status H. inversion H; subst.
  destruct (poll_result_terminal a Ha) as [Hterm Hst]. split; auto.
  unfold is_terminal in Hterm.
  apply orb_true_iff in Hterm. destruct Hterm as [Hterm | Hterm];
    [apply orb_true_iff in Hterm; destruct Hterm as [Hterm | Hterm] |];
    apply String.eqb_eq in Hterm; auto.
Qed.

(** X10: [check_query_status] pauses at most once, and only after a
    status check that raised: then the pause is its last event and it
    returns the status FAILED with the text of the exception.  Between
    two status checks it never pauses. *)
Theorem check_query_status_pauses_on_error_only (fuel : nat)
  (query_id : string) (sleep_time : Z) (s : St W) :
  let r := check_query_status svc fuel query_id sleep_time s in
  exists tl,
    trace (snd r) = trace s ++ tl /\
    (sleeps tl = [] \/
     exists pre e,
       tl = pre ++ [EvDescribe query_id (inl e); EvSleep sleep_time] /\
       sleeps pre = [] /\
       fst r = Ret (mkStatus "FAILED" (Some (exn_text e)), "FAILED")).
Proof.
  intros r. subst r. unfold check_query_status, bind.
  assert (Hrun_pre : forall pre,
            Forall still_running pre ->
            sleeps (poll_events query_id sleep_time pre) = [] /\
            forall rest,
              poll_events query_id sleep_time (pre ++ rest)
              = poll_events query_id sleep_time pre
                ++ poll_events query_id sleep_time rest).
  { induction 1 as [| [e | st] pre Ha _ [IH1 IH2]]; cbn; auto;
      [contradiction |]. split; auto. intros rest. now rewrite IH2. }
  destruct (poll_loop query_id sleep_time fuel (None, "SUBMITTED") s eq_refl)
    as (answers & s' & [(pre & a & -> & Hpre & Ha & Hrun)
                       | (Hall & Hlen & Hrun)] & Ht & _);
    rewrite Hrun; cbn.
  - exists (poll_events query_id sleep_time (pre ++ [a])).
    destruct (Hrun_pre pre Hpre) as [Hs Happ].
    split; [now destruct (poll_result a) |].
    rewrite Happ. destruct a as [e | st]; cbn.
    + right. exists (poll_events query_id sleep_time pre), e. auto.
    + left. clear - Hs.
      induction (poll_events query_id sleep_time pre) as [| [] l IH];
        cbn in *; auto; discriminate.
  - exists (poll_events query_id sleep_time answers). split; auto.
    left. now apply Hrun_pre.
Qed.

(** X11: the poller has no bound of its own: while every status check
    answers a status that is not terminal, [check_query_status] goes on
    checking without a pause; whatever the fuel, it has used it all on
    status checks and has not returned. *)
Theorem check_query_status_never_gives_up (query_id : string)
  (sleep_time : Z) :
  (forall w,
     exists st w',
       describe_statement svc query_id w = (inr st, w') /\
       is_terminal (Status st) = false) ->
  forall (fuel : nat) (s : St W),
    let r := check_query_status svc fuel query_id sleep_time s in
    fst r = OutOfFuel /\
    exists tl,
      trace (snd r) = trace s ++ tl /\
      List.length tl = fuel /\
      Forall (fun ev => exists st, ev = EvDescribe query_id (inr st)) tl.
Proof.
  intros Hrun fuel s r. subst r. unfold check_query_status, bind.
  assert (Hloop : forall fuel (v : PollVars) (s : St W),
            is_terminal (snd v) = false ->
            exists s' tl,
              while_ (R := unit) fuel
                (fun v : PollVars => negb (is_terminal (snd v)))
                (check_query_status_body svc query_id sleep_time) v s
              = (OutOfFuel, s') /\
              trace s' = trace s ++ tl /\
              List.length tl = fuel /\
              Forall (fun ev => exists st, ev = EvDescribe query_id (inr st))
                tl).
  { clear fuel s. induction fuel as [| fuel IH]; intros v s Hv;
      cbn [while_]; rewrite Hv; cbn [negb].
    - exists s, []. repeat split; auto. now rewrite app_nil_r.
    - unfold bind. rewrite check_query_status_body_step.
      destruct (Hrun (world s)) as (st & w' & Hd & Hst). rewrite Hd.
      cbn [fst snd].
      set (s1 := mkSt w' _ _).
      destruct (IH (Some st, Status st) s1 Hst) as (s' & tl & Hw & Ht & Hl & Hf).
      exists s', (EvDescribe query_id (inr st) :: tl). repeat split; auto.
      + rewrite Ht. subst s1. cbn. now rewrite <- app_assoc.
      + cbn. now rewrite Hl.
      + constructor; eauto. }
  destruct (Hloop fuel (None, "SUBMITTED") s eq_refl)
    as (s' & tl & Hw & Ht & Hl & Hf).
  rewrite Hw. cbn. split; auto. exists tl. auto.
Qed.

End Poller.

(** X11, on the engine where a statement never ends, with fuel for
    seven status checks. *)
Lemma check_query_status_never_gives_up_witness :
  fst (check_query_status Running.services 7 "q" 120 (Running.start 3))
  = OutOfFuel /\
  world (snd (check_query_status Running.services 7 "q" 120
                (Running.start 3))) = 7%nat.
Proof.
  split; [| reflexivity].
  apply (check_query_status_never_gives_up Running.services "q" 120).
  intros w. exists (mkStatus "STARTED" None), (S w). split; reflexivity.
Defined.

(** ** The retry controller, in general *)

Section RetryBounds.

Context {W : Type} (svc : Services W).

Lemma poll_events_submit_only (sql : string) (tl : list Event) :
  Forall poll_event tl -> Forall (submits_only sql) tl.
Proof.
  induction 1 as [| ev tl Hev _ IH]; constructor; auto.
  destruct ev; cbn in *; auto; contradiction.
Qed.

Lemma submissions_length_app (tl1 tl2 : list Event) :
  List.length (submissions (tl1 ++ tl2))
  = (List.length (submissions tl1) + List.length (submissions tl2))%nat.
Proof. now rewrite submissions_app, length_app. Qed.

(** The loop of [execute_sp_with_retries] from any value of [retries]. *)
Lemma retry_loop_bounds (fuel : nat) (o : Self)
  (sp_name file_source : string) (fuel' : nat) :
  forall (retries : Z) (s : St W),
    let r :=
      while_ fuel' (fun n : Z => (n <? RETRY_LIMIT o)%Z)
        (execute_sp_with_retries_body svc fuel o sp_name file_source)
        retries s in
    exists tl,
      trace (snd r) = trace s ++ tl /\
      Forall (submits_only (call_sql sp_name)) tl /\
      (List.length (submissions tl) <= Z.to_nat (RETRY_LIMIT o - retries))%nat
      /\
      match fst r with
      | Ret (inr true) =>
          self (snd r) = set_error_message "Null" (self s) /\
          (1 <= List.length (submissions tl))%nat
      | Ret (inr false) =>
          exists response,
            self (snd r)
            = set_error_message (error_fragment (get_error response))
                (set_failed_sp_entry
                   (mkFailedSpEntry sp_name (get_error response)
                      (data_source_label file_source) (reportregionname o))
                   (self s))
      | Ret (inl _) => self (snd r) = self s
      | OutOfFuel => self (snd r) = self s
      | Raise _ => False
      end.
Proof.
  induction fuel' as [| fuel' IH]; intros retries s r; subst r;
    cbn [while_]; destruct (retries <? RETRY_LIMIT o)%Z eqn:Hlt;
    try (exists []; cbn; rewrite app_nil_r; repeat split; auto; lia).
  apply Z.ltb_lt in Hlt.
  unfold bind. rewrite execute_sp_with_retries_body_step.
  destruct (attempt_trace svc fuel sp_name s)
    as (answer & polls & Ht & Hp & Hs).
  pose proof (poll_events_submit_only (call_sql sp_name) polls Hp) as Hp'.
  pose proof (poll_events_no_submission polls Hp) as Hp0.
  assert (Hone : (List.length
                    (submissions
                       (EvRedshiftExecute (call_sql sp_name) answer :: polls))
                  = 1)%nat) by (cbn; now rewrite Hp0).
  destruct (attempt svc fuel sp_name s)
    as [[[response_status query_status] | e |] s1]; cbn [fst snd] in *.
  - destruct (String.eqb query_status "FAILED").
    + destruct (retries + 1 <? RETRY_LIMIT o)%Z eqn:Hlt'.
      * destruct (IH (retries + 1)%Z (slept svc 120 s1))
          as (tl & Ht' & Hf & Hn & Hout).
        exists ((EvRedshiftExecute (call_sql sp_name) answer :: polls)
                ++ EvSleep 120 :: tl).
        repeat split.
        -- rewrite Ht'. cbn [slept trace]. rewrite Ht.
           now rewrite <- !app_assoc.
        -- apply Forall_app. split; [constructor; cbn; auto |].
           constructor; cbn; auto.
        -- rewrite submissions_length_app, Hone. cbn [submissions]. lia.
        -- cbn [slept self] in Hout. rewrite Hs in Hout.
           destruct (fst (while_ fuel' _ _ (retries + 1)%Z (slept svc 120 s1)))
             as [[n | [|]] | e |]; auto.
           destruct Hout as [Hout _]. split; auto.
           rewrite submissions_length_app, Hone. lia.
      * exists (EvRedshiftExecute (call_sql sp_name) answer :: polls).
        unfold with_self. cbn [fst snd trace self]. repeat split; auto.
        -- constructor; cbn; auto.
        -- rewrite Hone. lia.
        -- exists response_status. now rewrite Hs.
    + exists (EvRedshiftExecute (call_sql sp_name) answer :: polls).
      unfold with_self. cbn [fst snd trace self]. repeat split; auto.
      * constructor; cbn; auto.
      * rewrite Hone. lia.
      * now rewrite Hs.
      * rewrite Hone. lia.
  - destruct (IH (retries + 1)%Z s1) as (tl & Ht' & Hf & Hn & Hout).
    exists ((EvRedshiftExecute (call_sql sp_name) answer :: polls) ++ tl).
    repeat split.
    + rewrite Ht', Ht. now rewrite <- !app_assoc.
    + apply Forall_app. split; [constructor; cbn; auto | auto].
    + rewrite submissions_length_app, Hone. lia.
    + rewrite Hs in Hout.
      destruct (fst (while_ fuel' _ _ (retries + 1)%Z s1))
        as [[n | [|]] | e' |]; auto.
      destruct Hout as [Hout _]. split; auto.
      rewrite submissions_length_app, Hone. lia.
  - exists (EvRedshiftExecute (call_sql sp_name) answer :: polls).
    cbn [fst snd]. repeat split; auto.
    + constructor; cbn; auto.
    + rewrite Hone. lia.
Qed.

(** X12: with a retry limit of zero or less the loop never runs:
    [execute_sp_with_retries] returns [False] at once, submits nothing
    and stores no failure record. *)
Theorem execute_sp_with_retries_without_budget (fuel : nat)
  (sp_name file_source : string) (s : St W) :
  (RETRY_LIMIT (self s) <= 0)%Z ->
  execute_sp_with_retries svc fuel sp_name file_source s = (Ret false, s).
Proof.
  intros HR. unfold execute_sp_with_retries, bind at 1, get_self.
  unfold bind.
  assert (Hlt : (0 <? RETRY_LIMIT (self s))%Z = false)
    by (apply Z.ltb_ge; lia).
  destruct fuel; cbn [while_]; rewrite Hlt; reflexivity.
Qed.

(** X13: whatever the engine answers, [execute_sp_with_retries] submits
    only the statement CALL of its own procedure, at most RETRY_LIMIT
    times, raises no exception, and never assigns an attribute other
    than [failed_sp_entry] and [error_message]. *)
Theorem execute_sp_with_retries_bounded (fuel : nat)
  (sp_name file_source : string) (s : St W) :
  let r := execute_sp_with_retries svc fuel sp_name file_source s in
  (exists tl,
     trace (snd r) = trace s ++ tl /\
     Forall (submits_only (call_sql sp_name)) tl /\
     (Z.of_nat (List.length (submissions tl))
      <= Z.max 0 (RETRY_LIMIT (self s)))%Z) /\
  (forall e, fst r <> Raise e) /\
  config (self (snd r)) = config (self s).
Proof.
  intros r. subst r. unfold execute_sp_with_retries, bind at 1, get_self.
  unfold bind.
  destruct (retry_loop_bounds fuel (self s) sp_name file_source fuel 0%Z s)
    as (tl & Ht & Hf & Hn & Hout).
  destruct (while_ fuel _ _ 0%Z s) as [[[retries | [|]] | e |] s'];
    cbn [fst snd] in *; try contradiction;
    (split; [exists tl; repeat split; auto; lia
            | split; [cbn; discriminate |]]).
  - cbn. now rewrite Hout.
  - cbn. destruct Hout as [Hout _]. now rewrite Hout.
  - cbn. destruct Hout as [response Hout]. now rewrite Hout.
  - cbn. now rewrite Hout.
Qed.

(** X14: [execute_sp_with_retries] touches the job object only when it
    returns.  It returns [True] after setting [error_message] to "Null"
    and nothing else; it returns [False] either with the failure record
    and the error fragment of one execution stored, or with the object
    untouched. *)
Theorem execute_sp_with_retries_result_and_object (fuel : nat)
  (sp_name file_source : string) (s : St W) :
  let r := execute_sp_with_retries svc fuel sp_name file_source s in
  (fst r = Ret true -> self (snd r) = set_error_message "Null" (self s)) /\
  (fst r = Ret false ->
   self (snd r) = self s \/
   exists response,
     self (snd r) = record_failure sp_name file_source response (self s)) /\
  (fst r = OutOfFuel -> self (snd r) = self s).
Proof.
  intros r. subst r. unfold execute_sp_with_retries, bind at 1, get_self.
  unfold bind.
  destruct (retry_loop_bounds fuel (self s) sp_name file_source fuel 0%Z s)
    as (tl & _ & _ & _ & Hout).
  destruct (while_ fuel _ _ 0%Z s) as [[[retries | [|]] | e |] s'];
    cbn [fst snd] in *; try contradiction;
    repeat split; try discriminate; auto.
  now destruct Hout.
Qed.

(** X15: when the engine rejects every submission,
    [execute_sp_with_retries] submits the statement RETRY_LIMIT times in
    a row, without any pause and without a status check, and returns
    [False] with the job object untouched. *)
Theorem execute_sp_with_retries_all_rejected (fuel : nat)
  (sp_name file_source : string) (s : St W) :
  (forall sql w,
     exists e w', redshift_execute_statement svc sql w = (inl e, w')) ->
  (0 <= RETRY_LIMIT (self s))%Z ->
  (Z.to_nat (RETRY_LIMIT (self s)) <= fuel)%nat ->
  exists s' tl,
    execute_sp_with_retries svc fuel sp_name file_source s = (Ret false, s') /\
    self s' = self s /\
    trace s' = trace s ++ tl /\
    List.length tl = Z.to_nat (RETRY_LIMIT (self s)) /\
    Forall
      (fun ev => exists e, ev = EvRedshiftExecute (call_sql sp_name) (inl e))
      tl.
Proof.
  intros Hrej HR Hfuel.
  assert (Hloop : forall (n fuel' : nat) (retries : Z) (s0 : St W),
            (retries + Z.of_nat n = RETRY_LIMIT (self s))%Z ->
            (n <= fuel')%nat ->
            exists s' tl,
              while_ fuel' (fun r : Z => (r <? RETRY_LIMIT (self s))%Z)
                (execute_sp_with_retries_body svc fuel (self s) sp_name
                   file_source) retries s0
              = (Ret (inl (RETRY_LIMIT (self s))), s') /\
              self s' = self s0 /\
              trace s' = trace s0 ++ tl /\
              List.length tl = n /\
              Forall
                (fun ev =>
                   exists e,
                     ev = EvRedshiftExecute (call_sql sp_name) (inl e)) tl).
  { induction n as [| n IH]; intros fuel' retries s0 Hn Hf.
    - exists s0, []. rewrite app_nil_r. repeat split; auto.
      assert (Hlt : (retries <? RETRY_LIMIT (self s))%Z = false)
        by (apply Z.ltb_ge; lia).
      replace retries with (RETRY_LIMIT (self s)) in * by lia.
      destruct fuel'; cbn [while_]; rewrite Hlt; reflexivity.
    - destruct fuel' as [| fuel']; [lia |].
      cbn [while_].
      replace (retries <? RETRY_LIMIT (self s))%Z with true
        by (symmetry; apply Z.ltb_lt; lia).
      unfold bind at 1. rewrite execute_sp_with_retries_body_step.
      unfold attempt, bind at 1, redshift_execute, call.
      destruct (Hrej (call_sql sp_name) (world s0)) as (e & w' & He).
      rewrite He. cbv beta iota.
      set (s1 := mkSt w' _ _).
      destruct (IH fuel' (retries + 1)%Z s1) as (s' & tl & Hw & Hs & Ht & Hl & Hall);
        [lia | lia |].
      exists s', (EvRedshiftExecute (call_sql sp_name) (inl e) :: tl).
      repeat split; auto.
      + rewrite Ht. subst s1. cbn. now rewrite <- app_assoc.
      + cbn. now rewrite Hl.
      + constructor; eauto. }
  destruct (Hloop (Z.to_nat (RETRY_LIMIT (self s))) fuel 0%Z s)
    as (s' & tl & Hw & Hs & Ht & Hl & Hall); [lia | lia |].
  exists s', tl. repeat split; auto.
  unfold execute_sp_with_retries, bind at 1, get_self. unfold bind.
  now rewrite Hw.
Qed.

End RetryBounds.

(** X12, with the retry limit 0. *)
Lemma execute_sp_with_retries_without_budget_witness :
  execute_sp_with_retries services 5 "SP_A" "SPDST" (start 0 scenario_A)
  = (Ret false, start 0 scenario_A).
Proof.
  apply (execute_sp_with_retries_without_budget services). cbn. lia.
Defined.

(** X15, on the engine that rejects every submission, with the retry
    limit 3. *)
Lemma execute_sp_with_retries_all_rejected_witness :
  exists s' tl,
    execute_sp_with_retries Rejecting.services 3 "SP_A" "SPDST"
      (Rejecting.start 3) = (Ret false, s') /\
    trace s' = tl /\ List.length tl = 3%nat.
Proof.
  destruct (execute_sp_with_retries_all_rejected Rejecting.services 3
              "SP_A" "SPDST" (Rejecting.start 3))
    as (s' & tl & Hrun & _ & Ht & Hl & _).
  - intros sql w. eexists. eexists. reflexivity.
  - cbn. lia.
  - cbn. lia.
  - exists s', tl. auto.
Defined.

Section RetrySummary.

Context {W : Type} (svc : Services W).

(** What one call of [execute_sp_with_retries] leaves behind, by
    outcome. *)
Lemma execute_sp_with_retries_summary (fuel : nat)
  (sp_name file_source : string) (s : St W) :
  let r := execute_sp_with_retries svc fuel sp_name file_source s in
  exists tl,
    trace (snd r) = trace s ++ tl /\
    Forall (submits_only (call_sql sp_name)) tl /\
    match fst r with
    | Ret true =>
        self (snd r) = set_error_message "Null" (self s) /\
        (1 <= List.length (submissions tl))%nat
    | Ret false =>
        self (snd r) = self s \/
        exists response,
          self (snd r) = record_failure sp_name file_source response (self s)
    | Raise _ => False
    | OutOfFuel => self (snd r) = self s
    end.
Proof.
  intros r. subst r. unfold execute_sp_with_retries, bind at 1, get_self.
  unfold bind.
  destruct (retry_loop_bounds svc fuel (self s) sp_name file_source fuel 0%Z s)
    as (tl & Ht & Hf & _ & Hout).
  exists tl.
  destruct (while_ fuel _ _ 0%Z s) as [[[retries | [|]] | e |] s'];
    cbn [fst snd ret] in *; repeat split; auto; tauto.
Qed.

Lemma submits_only_repeat (sql : string) (tl : list Event) :
  Forall (submits_only sql) tl ->
  submissions tl = repeat sql (List.length (submissions tl)).
Proof.
  induction 1 as [| ev tl Hev _ IH]; cbn; auto.
  destruct ev; cbn in *; auto. subst. now f_equal.
Qed.

End RetrySummary.

(** ** The batch runner, in general *)

Section ExceptionLogic.

Context {W : Type} (svc : Services W).
Variables (I : Self -> Prop) (P : Event -> Prop).

Lemma raises_in_ret {A} (E : Exn -> Prop) (a : A) :
  raises_in I E (@ret W A a).
Proof. intros s e _ H; discriminate. Qed.

Lemma raises_in_raise {A} (E : Exn -> Prop) (e : Exn) :
  E e -> raises_in I E (@raise W A e).
Proof. intros He s e' _ H. cbn in H. now inversion H; subst. Qed.

Lemma raises_in_never {A} (E : Exn -> Prop) (m : M W A) :
  (forall s e, fst (m s) <> Raise e) -> raises_in I E m.
Proof. intros H s e _ Hr. now apply H in Hr. Qed.

Lemma raises_in_bind {A B} (E : Exn -> Prop) (m : M W A) (k : A -> M W B)
  (Q : A -> Prop) :
  emits I P m Q -> raises_in I E m ->
  (forall a, Q a -> raises_in I E (k a)) ->
  raises_in I E (bind m k).
Proof.
  intros Hm Hr Hk s e HI H. unfold bind in H.
  destruct (Hm s HI) as (HI' & _ & HQ). specialize (Hr s).
  destruct (m s) as [[a | e' |] s1]; cbn in *.
  - eapply Hk; eauto.
  - inversion H; subst. auto.
  - discriminate.
Qed.

Lemma raises_in_try {A} (E E' : Exn -> Prop) (body : M W A)
  (handler : Exn -> M W A) (Q : A -> Prop) :
  emits I P body Q -> raises_in I E' body ->
  (forall e, E' e -> raises_in I E (handler e)) ->
  raises_in I E (try_except body handler).
Proof.
  intros Hm Hr Hh s e HI H. unfold try_except in H.
  destruct (Hm s HI) as (HI' & _ & _). specialize (Hr s).
  destruct (body s) as [[a | e' |] s1]; cbn in *; try discriminate.
  eapply Hh; eauto.
Qed.

Lemma raises_in_for_each {A R} (E : Exn -> Prop) (xs : list A)
  (body : A -> M W (ctl unit R)) :
  (forall x, emits I P (body x) (fun _ => True)) ->
  (forall x, raises_in I E (body x)) ->
  raises_in I E (for_each xs body).
Proof.
  intros Hb Hr. induction xs as [| x xs IH]; cbn.
  - apply raises_in_ret.
  - eapply raises_in_bind; eauto.
    intros [l | l | r] _; auto; apply raises_in_ret.
Qed.

End ExceptionLogic.

Section RunnerProps.

Context {W : Type} (svc : Services W).

Lemma config_set_error_message (m : string) (o : Self) :
  config (set_error_message m o) = config o.
Proof. reflexivity. Qed.

Lemma config_set_failed_sp_entry (e : FailedSpEntry) (o : Self) :
  config (set_failed_sp_entry e o) = config o.
Proof. reflexivity. Qed.

(** X16: [main] changes no attribute of the job object other than
    [failed_sp_entry] and [error_message]: the retry limit, the topic,
    the region and the other settings read by [__init__] are the same
    after the run, however it ends. *)
Theorem main_keeps_config (fuel : nat) (s : St W) :
  config (self (snd (main svc fuel s))) = config (self s).
Proof.
  destruct (emits_main svc (fun o => config o = config (self s))
              (fun _ => True)) with (fuel := fuel) (s := s)
    as (H & _); auto.
Qed.

Lemma emits_main_true (fuel : nat) :
  emits (fun _ => True) (fun _ => True) (main svc fuel) (fun b => b = true).
Proof.
  unfold main. apply emits_try.
  - eapply emits_bind; [apply emits_update_audit_log; auto |]. intros _ _.
    eapply emits_bind; [apply emits_fetch_pending_sps; auto |].
    intros [| sp sps] _.
    + eapply emits_bind; [apply emits_send_sns_message; auto |].
      intros; now apply emits_ret.
    + eapply emits_bind;
        [apply emits_for_each; intros; apply emits_main_for_body; auto |].
      intros _ _.
      eapply emits_bind; [apply emits_update_audit_log; auto |]. intros _ _.
      eapply emits_bind; [apply emits_send_sns_message; auto |].
      intros; now apply emits_ret.
  - intros e. unfold main_handler.
    eapply emits_bind; [apply emits_update_audit_log; auto |]. intros _ _.
    eapply emits_bind; [apply emits_send_sns_message; auto |]. intros _ _.
    apply emits_raise.
Qed.

(** X17: [main] never returns [False]: when it returns, it returns
    [True]; every failure of a procedure leaves it by an exception. *)
Theorem main_never_returns_false (fuel : nat) (s : St W) (b : bool) :
  fst (main svc fuel s) = Ret b -> b = true.
Proof.
  intros H. destruct (emits_main_true fuel s I) as (_ & _ & HQ). auto.
Qed.

Lemma raises_in_fetch_pending_sps (I : Self -> Prop) :
  raises_in I (eq rds_failed) (fetch_pending_sps svc).
Proof.
  unfold fetch_pending_sps.
  eapply raises_in_bind with (P := fun _ => True);
    [apply emits_get_self | apply raises_in_never; discriminate |].
  intros o _.
  eapply raises_in_bind with (P := fun _ => True) (Q := fun _ => True).
  - apply emits_for_each. intros attempt.
    unfold fetch_pending_sps_body. apply emits_try.
    + eapply emits_bind; [now apply emits_call |]. intros response _.
      eapply emits_bind; [apply emits_lift_sum |].
      intros; now apply emits_ret.
    + intros e. destruct (attempt =? max_retries)%Z; [apply emits_raise |].
      eapply emits_bind; [now apply emits_sleep |].
      intros; now apply emits_ret.
  - apply raises_in_for_each with (P := fun _ => True).
    + intros attempt. unfold fetch_pending_sps_body. apply emits_try.
      * eapply emits_bind; [now apply emits_call |]. intros response _.
        eapply emits_bind; [apply emits_lift_sum |].
        intros; now apply emits_ret.
      * intros e. destruct (attempt =? max_retries)%Z; [apply emits_raise |].
        eapply emits_bind; [now apply emits_sleep |].
        intros; now apply emits_ret.
    + intros attempt. unfold fetch_pending_sps_body.
      eapply raises_in_try with (P := fun _ => True) (E' := fun _ => True)
                                (Q := fun _ => True).
      * eapply emits_bind; [now apply emits_call |]. intros response _.
        eapply emits_bind; [apply emits_lift_sum |].
        intros; now apply emits_ret.
      * intros s e _ _. exact Logic.I.
      * intros e _. destruct (attempt =? max_retries)%Z.
        -- now apply raises_in_raise.
        -- apply raises_in_never. intros s e'. discriminate.
  - intros [rows |] _; apply raises_in_ret.
Qed.

(** X18: the exceptions [main] can end with are three: the
    RuntimeError of the fetch of the work list after its three tries,
    the exception "SP ... failed after N retries ... Job terminating."
    built from the settings of the job, and the AttributeError raised
    when [self.failed_sp_entry] is read before it was ever assigned.  An
    exception of the audit store, of SNS or of the engine never leaves
    [main]. *)
Theorem main_raises_only (fuel : nat) (s : St W) (e : Exn) :
  fst (main svc fuel s) = Raise e -> main_exception (self s) e.
Proof.
  set (o0 := self s).
  set (Inv := fun o : Self => config o = config o0).
  set (P := fun _ : Event => True).
  assert (Hupd : forall status es b,
            emits Inv P (update_audit_log svc status es b) (fun _ => True))
    by (intros; apply emits_update_audit_log; subst P; cbn; auto).
  assert (Hsns : forall status f,
            emits Inv P (send_sns_message svc status f) (fun _ => True))
    by (intros; apply emits_send_sns_message; subst P; cbn; auto).
  assert (Hupd' : forall E status es b,
            raises_in Inv E (update_audit_log svc status es b)).
  { intros E st es b. apply raises_in_never. intros s0 e0 H.
    destruct (update_audit_log_ret svc st es b s0) as [Hr _].
    congruence. }
  assert (Hsns' : forall E status f,
            raises_in Inv E (send_sns_message svc status f)).
  { intros E st f. apply raises_in_never. intros s0 e0 H.
    pose proof (send_sns_message_ret svc st f s0). congruence. }
  assert (Hbody : forall sp,
            emits Inv P (main_for_body svc fuel sp) (fun _ => True))
    by (intros; apply emits_main_for_body; subst Inv P; cbn; auto).
  assert (Hmain : raises_in Inv (main_exception o0) (main svc fuel)).
  { unfold main.
    eapply raises_in_try with (P := P) (E' := main_exception o0)
                              (Q := fun _ => True).
    - eapply emits_bind; [apply Hupd |]. intros _ _.
      eapply emits_bind; [apply emits_fetch_pending_sps; subst P; cbn; auto |].
      intros [| sp sps] _.
      + eapply emits_bind; [apply Hsns |]. intros; now apply emits_ret.
      + eapply emits_bind; [apply emits_for_each; apply Hbody |]. intros _ _.
        eapply emits_bind; [apply Hupd |]. intros _ _.
        eapply emits_bind; [apply Hsns |]. intros; now apply emits_ret.
    - eapply raises_in_bind; [apply Hupd | apply Hupd' |]. intros _ _.
      eapply raises_in_bind with (P := P) (Q := fun _ => True).
      + apply emits_fetch_pending_sps; subst P; cbn; auto.
      + intros s0 e0 HI H.
        left. symmetry. exact (raises_in_fetch_pending_sps Inv s0 e0 HI H).
      + intros [| sp sps] _.
        * eapply raises_in_bind; [apply Hsns | apply Hsns' |].
          intros; apply raises_in_ret.
        * eapply raises_in_bind with (P := P) (Q := fun _ => True).
          -- apply emits_for_each; apply Hbody.
          -- apply raises_in_for_each with (P := P); [apply Hbody |].
             intros [sp_name file_source]. unfold main_for_body.
             eapply raises_in_bind with (P := P) (Q := fun _ => True).
             ++ apply emits_execute_sp_with_retries; subst Inv P; cbn; auto.
             ++ apply raises_in_never. intros s0 e0 H.
                destruct (execute_sp_with_retries_summary svc fuel sp_name
                            file_source s0) as (tl & _ & _ & Hout).
                rewrite H in Hout. exact Hout.
             ++ intros [|] _; cbn; [apply raises_in_ret |].
                eapply raises_in_bind; [apply Hupd | apply Hupd' |].
                intros _ _.
                eapply raises_in_bind with (P := P) (Q := fun _ => True).
                ** apply emits_get_failed_sp_entry.
                ** intros s0 e0 _ H. right. left.
                   unfold get_failed_sp_entry, bind, get_self in H.
                   destruct (failed_sp_entry (self s0)); cbn in H;
                     now inversion H.
                ** intros entry _.
                   eapply raises_in_bind; [apply Hsns | apply Hsns' |].
                   intros _ _.
                   eapply raises_in_bind with (P := P);
                     [apply emits_get_self
                     | apply raises_in_never; discriminate |].
                   intros o Ho. apply raises_in_raise. right. right.
                   exists sp_name. unfold terminating.
                   assert (H1 : RETRY_LIMIT o = RETRY_LIMIT o0)
                     by exact (f_equal RETRY_LIMIT Ho).
                   assert (H2 : env o = env o0) by exact (f_equal env Ho).
                   assert (H3 : reportregionname o = reportregionname o0)
                     by exact (f_equal reportregionname Ho).
                   now rewrite H1, H2, H3.
          -- intros _ _.
             eapply raises_in_bind; [apply Hupd | apply Hupd' |].
             intros _ _.
             eapply raises_in_bind; [apply Hsns | apply Hsns' |].
             intros; apply raises_in_ret.
    - intros e0 He0. unfold main_handler.
      eapply raises_in_bind; [apply Hupd | apply Hupd' |]. intros _ _.
      eapply raises_in_bind; [apply Hsns | apply Hsns' |]. intros _ _.
      now apply raises_in_raise. }
  intros H. exact (Hmain s e eq_refl H).
Qed.

End RunnerProps.

Section RunnerRuns.

Context {W : Type} (svc : Services W).

Lemma units_succeed_error_message (fuel : nat) (sps : list (string * string))
  (s1 s2 : St W) :
  units_succeed svc fuel sps s1 s2 ->
  sps <> [] ->
  error_message (self s2) = Some "Null".
Proof.
  induction 1 as [s | sp_name file_source rest s s' s2 Hx Hrest IH];
    [congruence |]. intros _.
  destruct (execute_sp_with_retries_summary svc fuel sp_name file_source s)
    as (tl & _ & _ & Hout).
  rewrite Hx in Hout. cbn in Hout. destruct Hout as [Hself _].
  destruct rest as [| u rest]; [| apply IH; discriminate].
  inversion Hrest; subst. now rewrite Hself.
Qed.

Lemma units_succeed_submissions (fuel : nat) (sps : list (string * string))
  (s1 s2 : St W) :
  units_succeed svc fuel sps s1 s2 ->
  exists counts tl,
    trace s2 = trace s1 ++ tl /\
    List.length counts = List.length sps /\
    Forall (fun n => (1 <= n)%nat) counts /\
    submissions tl = submission_blocks sps counts.
Proof.
  induction 1 as [s | sp_name file_source rest s s' s2 Hx Hrest IH].
  - exists [], []. rewrite app_nil_r. repeat split; auto.
  - destruct IH as (counts & tl' & Ht' & Hlen & Hall & Hsub).
    destruct (execute_sp_with_retries_summary svc fuel sp_name file_source s)
      as (tl & Ht & Hf & Hout).
    rewrite Hx in Ht, Hout. cbn in Ht, Hout. destruct Hout as [_ Hone].
    exists (List.length (submissions tl) :: counts), (tl ++ tl').
    repeat split.
    + rewrite Ht', Ht. now rewrite app_assoc.
    + cbn. now rewrite Hlen.
    + constructor; auto.
    + rewrite submissions_app, Hsub. unfold submission_blocks. cbn.
      f_equal. now apply submits_only_repeat.
Qed.

Lemma send_sns_message_failure_run (status : string) (item : ErrorItem)
  (items : list ErrorItem) (s : St W) :
  exists a s',
    send_sns_message svc status (item :: items) s = (Ret tt, s') /\
    trace s' = trace s ++ [status_event (self s) status (item :: items) a] /\
    self s' = self s.
Proof.
  unfold send_sns_message, try_except, bind, get_self, publish, call.
  destruct (sns_publish svc (sns_arn (self s)) _ _ (world s))
    as [[e | []] w1]; cbn; [exists (inl e) | exists (inr tt)];
    eexists; repeat split.
Qed.

Lemma completion_event_audit (sql : Sql) (r : Exn + RdsResponse) :
  audit_statement "Completed" (Some "Finished") false sql ->
  completion_event (EvRds sql r).
Proof. auto. Qed.

Lemma completion_event_no_submission (tl : list Event) :
  Forall completion_event tl -> submissions tl = [].
Proof.
  induction 1 as [| ev tl Hev _ IH]; cbn; auto.
  destruct ev; cbn in *; auto; contradiction.
Qed.

(** The run of [main] when every procedure of the work list returns
    [True]. *)
Lemma main_all_succeed_run (fuel : nat) (s s1 s2 : St W)
  (sps : list (string * string)) :
  fetch_pending_sps svc (snd (update_audit_log svc "InProgress" None true s))
  = (Ret sps, s1) ->
  units_succeed svc fuel sps s1 s2 ->
  exists s' tl,
    main svc fuel s = (Ret true, s') /\
    trace s' = trace s2 ++ tl /\
    Forall completion_event tl /\
    self s' = self s2 /\
    (sps <> [] ->
     exists answer tl',
       tl = EvRds
              (UpdateTriggerLog "Finished" (utcnow svc (world s2)) "Null"
                 (reportregionname (self s2)) (BatchRunDate (self s2)))
              answer :: tl').
Proof.
  intros Hfetch Hunits.
  assert (Hsend : forall s0,
            exists s' tl,
              (send_sns_message svc "Succeeded" [] ;; ret true) s0
              = (Ret true, s') /\
              trace s' = trace s0 ++ tl /\ Forall completion_event tl /\
              self s' = self s0).
  { intros s0.
    pose proof (send_sns_message_ret svc "Succeeded" [] s0) as Hs.
    destruct (emits_send_sns_message svc (eq (self s0)) completion_event
                "Succeeded" []) with (s := s0)
      as (Hself & (tl & Ht & Hp) & _); auto.
    { intros o msg subject r _. destruct msg; cbn; [intros [-> _] |]; auto. }
    unfold bind.
    destruct (send_sns_message svc "Succeeded" [] s0) as [[[] | e |] s'];
      cbn in *; try discriminate.
    exists s', tl. auto. }
  unfold main, try_except. unfold bind at 1.
  pose proof (update_audit_log_ret svc "InProgress" None true s) as [Hret _].
  destruct (update_audit_log svc "InProgress" None true s)
    as [[[] | e0 |] s0]; cbn [fst snd] in Hret, Hfetch; try discriminate.
  unfold bind at 1. rewrite Hfetch.
  destruct sps as [| sp sps].
  - inversion Hunits; subst.
    destruct (Hsend s2) as (s' & tl & Hrun & Ht & Hp & Hself).
    rewrite Hrun. exists s', tl. repeat split; auto. congruence.
  - assert (Hloop : for_each (R := bool) (sp :: sps) (main_for_body svc fuel)
                      s1 = (Ret None, s2)).
    { rewrite <- (app_nil_r (sp :: sps)).
      now rewrite (for_each_units_succeed svc fuel (sp :: sps) [] s1 s2
                     Hunits). }
    unfold bind at 1. rewrite Hloop.
    pose proof (units_succeed_error_message fuel (sp :: sps) s1 s2 Hunits)
      as Hmsg.
    specialize (Hmsg ltac:(discriminate)).
    destruct (update_audit_log_first svc "Completed" (Some "Finished") s2
                "Null" Hmsg) as (answer & tl1 & Ht1).
    destruct (emits_update_audit_log svc (fun _ => True) completion_event
                (fun _ => I) "Completed" (Some "Finished") false
                completion_event_audit s2 I) as (_ & (tl1' & Ht1' & Hp1) & _).
    pose proof (update_audit_log_ret svc "Completed" (Some "Finished") false
                  s2) as [Hret2 Hself2].
    unfold bind at 1.
    destruct (update_audit_log svc "Completed" (Some "Finished") false s2)
      as [[[] | e1 |] s3]; cbn [fst snd] in *; try discriminate.
    destruct (Hsend s3) as (s' & tl2 & Hrun & Ht2 & Hp2 & Hself).
    rewrite Hrun.
    assert (Heq : tl1' = EvRds
                           (UpdateTriggerLog (fmt_opt (Some "Finished"))
                              (utcnow svc (world s2)) "Null"
                              (reportregionname (self s2))
                              (BatchRunDate (self s2))) answer :: tl1).
    { rewrite Ht1' in Ht1. now apply app_inv_head in Ht1. }
    exists s', (tl1' ++ tl2). repeat split.
    + rewrite Ht2, Ht1'. now rewrite app_assoc.
    + apply Forall_app; auto.
    + congruence.
    + intros _. exists answer, (tl1 ++ tl2). rewrite Heq. reflexivity.
Qed.

(** X19: when every procedure of a non-empty work list returns [True],
    [main] returns [True]; what it does after the last procedure is to
    close the run: the first event is the update of the trigger log with
    the status Finished, the time of that moment and the error message
    "Null", and every later event is an audit write of the status
    Completed / Finished, a pause between two tries of it, or a message
    that reports no failure. *)
Theorem main_completes_run (fuel : nat) (s s1 s2 : St W)
  (sps : list (string * string)) :
  fetch_pending_sps svc (snd (update_audit_log svc "InProgress" None true s))
  = (Ret sps, s1) ->
  sps <> [] ->
  units_succeed svc fuel sps s1 s2 ->
  exists s' answer tl,
    main svc fuel s = (Ret true, s') /\
    trace s'
    = trace s2
      ++ EvRds
           (UpdateTriggerLog "Finished" (utcnow svc (world s2)) "Null"
              (reportregionname (self s2)) (BatchRunDate (self s2)))
           answer :: tl /\
    Forall completion_event tl /\
    error_message (self s') = Some "Null".
Proof.
  intros Hfetch Hne Hunits.
  destruct (main_all_succeed_run fuel s s1 s2 sps Hfetch Hunits)
    as (s' & tl & Hrun & Ht & Hp & Hself & Hfirst).
  destruct (Hfirst Hne) as (answer & tl' & ->).
  exists s', answer, tl'. repeat split; auto.
  - now inversion Hp.
  - rewrite Hself. now apply (units_succeed_error_message fuel sps s1 s2).
Qed.

(** X20: the procedures are submitted in the order of the work list,
    each one once or more, none skipped: when every procedure returns
    [True], the submissions of the whole run of [main] are one block of
    CALL statements per procedure, in the order fetched. *)
Theorem main_submits_in_order (fuel : nat) (s s1 s2 : St W)
  (sps : list (string * string)) :
  fetch_pending_sps svc (snd (update_audit_log svc "InProgress" None true s))
  = (Ret sps, s1) ->
  units_succeed svc fuel sps s1 s2 ->
  exists counts,
    List.length counts = List.length sps /\
    Forall (fun n => (1 <= n)%nat) counts /\
    submissions (trace (snd (main svc fuel s)))
    = submissions (trace s) ++ submission_blocks sps counts.
Proof.
  intros Hfetch Hunits.
  destruct (main_all_succeed_run fuel s s1 s2 sps Hfetch Hunits)
    as (s' & tl & Hrun & Ht & Hp & _ & _).
  destruct (units_succeed_submissions fuel sps s1 s2 Hunits)
    as (counts & tl0 & Ht0 & Hlen & Hall & Hsub).
  exists counts. repeat split; auto.
  rewrite Hrun. cbn [snd]. rewrite Ht, Ht0, !submissions_app, Hsub.
  rewrite (completion_event_no_submission _ Hp), app_nil_r. f_equal.
  set (quiet := fun ev : Event =>
                  match ev with
                  | EvRedshiftExecute _ _ => False
                  | _ => True
                  end).
  assert (Hquiet : forall l, Forall quiet l -> submissions l = []).
  { induction 1 as [| ev l Hev _ IH]; cbn; auto.
    destruct ev; cbn in *; auto; contradiction. }
  destruct (emits_update_audit_log svc (fun _ => True) quiet (fun _ => I)
              "InProgress" None true) with (s := s)
    as (_ & (tla & Hta & Hpa) & _); cbn; auto.
  destruct (emits_fetch_pending_sps svc (fun _ => True) quiet (fun _ => I))
    with (s := snd (update_audit_log svc "InProgress" None true s))
    as (_ & (tlb & Htb & Hpb) & _); cbn; auto.
  rewrite Hfetch in Htb. cbn [snd] in Htb.
  rewrite Htb, Hta, !submissions_app.
  now rewrite (Hquiet _ Hpa), (Hquiet _ Hpb), !app_nil_r.
Qed.

(** X21: when the fetch of the work list fails on a job object whose
    [error_message] was never assigned, as it is after [__init__],
    [main] raises the exception of the fetch, but the [except] clause
    cannot build its audit statement: nothing is written to the audit
    store, which keeps the status InProgress, and the only thing done is
    the publication of the failure message "Unexpected error". *)
Theorem main_fetch_failure (fuel : nat) (s s1 : St W) (e : Exn) :
  error_message (self s) = None ->
  fetch_pending_sps svc (snd (update_audit_log svc "InProgress" None true s))
  = (Raise e, s1) ->
  exists s' a,
    main svc fuel s = (Raise e, s') /\
    trace s'
    = trace s1
      ++ [status_event (self s) "Failed" [ErrorText "Unexpected error"] a] /\
    self s' = self s.
Proof.
  intros Hnone Hfetch.
  pose proof (update_audit_log_ret svc "InProgress" None true s)
    as [Hret Hself0].
  assert (Hself1 : self s1 = self s).
  { destruct (emits_fetch_pending_sps svc (eq (self s)) (fun _ => True)
                (fun _ => I))
      with (s := snd (update_audit_log svc "InProgress" None true s))
      as (H & _); auto.
    rewrite Hfetch in H. now cbn in H. }
  unfold main, try_except. unfold bind at 1.
  destruct (update_audit_log svc "InProgress" None true s)
    as [[[] | e0 |] s0]; cbn [fst snd] in *; try discriminate.
  unfold bind at 1. rewrite Hfetch.
  unfold main_handler. unfold bind at 1.
  assert (Hskip : update_audit_log svc "Failed" (Some "Failed") false s1
                  = (Ret tt, s1)).
  { unfold update_audit_log, try_except, bind, get_self, now,
      get_error_message, bind, get_self.
    rewrite Hself1, Hnone. reflexivity. }
  rewrite Hskip.
  destruct (send_sns_message_failure_run "Failed"
              (ErrorText "Unexpected error") [] s1)
    as (a & s' & Hrun & Ht & Hs).
  unfold bind at 1. rewrite Hrun. cbn.
  exists s', a. rewrite Ht, Hs, Hself1. auto.
Qed.

(** X22: with a retry limit of zero or less and a work list that is not
    empty, on a job object as [__init__] builds it, [main] executes
    nothing: no statement is submitted, nothing is written to the audit
    store after the fetch, the only publication is the failure message
    "Unexpected error", and the job ends with the AttributeError on
    [failed_sp_entry]. *)
Theorem main_without_retry_budget (fuel : nat) (s s1 : St W)
  (sp : string * string) (sps : list (string * string)) :
  (RETRY_LIMIT (self s) <= 0)%Z ->
  error_message (self s) = None ->
  failed_sp_entry (self s) = None ->
  fetch_pending_sps svc (snd (update_audit_log svc "InProgress" None true s))
  = (Ret (sp :: sps), s1) ->
  exists s' a,
    main svc fuel s = (Raise (attribute_error "failed_sp_entry"), s') /\
    trace s'
    = trace s1
      ++ [status_event (self s) "Failed" [ErrorText "Unexpected error"] a] /\
    self s' = self s.
Proof.
  intros HR Hnone Hentry Hfetch.
  pose proof (update_audit_log_ret svc "InProgress" None true s)
    as [Hret Hself0].
  assert (Hself1 : self s1 = self s).
  { destruct (emits_fetch_pending_sps svc (eq (self s)) (fun _ => True)
                (fun _ => I))
      with (s := snd (update_audit_log svc "InProgress" None true s))
      as (H & _); auto.
    rewrite Hfetch in H. now cbn in H. }
  assert (Hskip : update_audit_log svc "Failed" (Some "Failed") false s1
                  = (Ret tt, s1)).
  { unfold update_audit_log, try_except, bind, get_self, now,
      get_error_message, bind, get_self.
    rewrite Hself1, Hnone. reflexivity. }
  assert (Hbody : main_for_body svc fuel sp s1
                  = (Raise (attribute_error "failed_sp_entry"), s1)).
  { destruct sp as [sp_name file_source]. unfold main_for_body.
    unfold bind at 1.
    assert (Hx : execute_sp_with_retries svc fuel sp_name file_source s1
                 = (Ret false, s1)).
    { unfold execute_sp_with_retries, bind at 1, get_self. unfold bind.
      assert (Hlt : (0 <? RETRY_LIMIT (self s1))%Z = false)
        by (apply Z.ltb_ge; rewrite Hself1; lia).
      destruct fuel; cbn [while_]; rewrite Hlt; reflexivity. }
    rewrite Hx. cbn [negb]. cbv iota.
    unfold bind at 1. rewrite Hskip.
    unfold bind at 1, get_failed_sp_entry, bind at 1, get_self.
    rewrite Hself1, Hentry. reflexivity. }
  unfold main, try_except. unfold bind at 1.
  destruct (update_audit_log svc "InProgress" None true s)
    as [[[] | e0 |] s0]; cbn [fst snd] in *; try discriminate.
  unfold bind at 1. rewrite Hfetch.
  unfold bind at 1. rewrite for_each_cons. unfold bind at 1. rewrite Hbody.
  unfold main_handler. unfold bind at 1. rewrite Hskip.
  destruct (send_sns_message_failure_run "Failed"
              (ErrorText "Unexpected error") [] s1)
    as (a & s' & Hrun & Ht & Hs).
  unfold bind at 1. rewrite Hrun. cbn.
  exists s', a. rewrite Ht, Hs, Hself1. auto.
Qed.

End RunnerRuns.

(** ** The general properties, on scripted runs *)

(** X17, on the run where the only procedure finishes. *)
Lemma main_never_returns_false_witness :
  fst (main services 5 (start 3 audit_up)) = Ret true /\ true = true.
Proof.
  split; [reflexivity |].
  apply (main_never_returns_false services 5 (start 3 audit_up)).
  reflexivity.
Defined.

(** X18, on scenario A. *)
Lemma main_raises_only_witness :
  main_exception (init "2025-01-01" (args 3))
    (mkExn "Exception"
       "SP SP_B failed after 3 retries in dev - EMEA. Job terminating.").
Proof.
  apply (main_raises_only services 5 (start 3 scenario_A)). reflexivity.
Defined.

(** X19, on the run where the only procedure finishes. *)
Lemma main_completes_run_witness :
  exists s' answer tl,
    main services 5 (start 3 audit_up) = (Ret true, s') /\
    trace s'
    = [EvRds (UpdateMasterInitial 0 "InProgress" "EMEA") ok;
       EvRds (SelectPendingSps "EMEA") (rows [("SP_A", "SPDST")]);
       EvRedshiftExecute "CALL SP_A;" (inr "q");
       EvDescribe "q" (inr (mkStatus "FINISHED" None))]
      ++ EvRds (UpdateTriggerLog "Finished" 0 "Null" "EMEA" "2025-01-01")
           answer :: tl /\
    Forall completion_event tl.
Proof.
  pose (sA := start 3 audit_up).
  let s1 := eval vm_compute in
      (snd (fetch_pending_sps services
              (snd (update_audit_log services "InProgress" None true sA)))) in
  let s2 := eval vm_compute in
      (snd (execute_sp_with_retries services 5 "SP_A" "SPDST" s1)) in
  destruct (main_completes_run services 5 sA s1 s2 [("SP_A", "SPDST")])
    as (s' & answer & tl & Hrun & Ht & Hp & _).
  - vm_compute. reflexivity.
  - discriminate.
  - eapply us_cons; [vm_compute; reflexivity | apply us_nil].
  - exists s', answer, tl. repeat split; auto.
Defined.

(** X20, on a run where SP_A needs two executions and SP_B one. *)
Lemma main_submits_in_order_witness :
  let w :=
    mkWorld [ok; rows [("SP_A", "SPDST"); ("SP_B", "OTHERS")]] []
      [failed "ERROR: e1"; status "FINISHED"; status "FINISHED"] [] 0 in
  exists counts,
    List.length counts = 2%nat /\
    submissions (trace (snd (main services 5 (start 3 w))))
    = submission_blocks [("SP_A", "SPDST"); ("SP_B", "OTHERS")] counts.
Proof.
  intros w. pose (sA := start 3 w).
  let s1 := eval vm_compute in
      (snd (fetch_pending_sps services
              (snd (update_audit_log services "InProgress" None true sA)))) in
  let s2 := eval vm_compute in
      (snd (execute_sp_with_retries services 5 "SP_A" "SPDST" s1)) in
  let s3 := eval vm_compute in
      (snd (execute_sp_with_retries services 5 "SP_B" "OTHERS" s2)) in
  destruct (main_submits_in_order services 5 sA s1 s3
              [("SP_A", "SPDST"); ("SP_B", "OTHERS")])
    as (counts & Hlen & _ & Hsub).
  - vm_compute. reflexivity.
  - eapply us_cons; [vm_compute; reflexivity |].
    eapply us_cons; [vm_compute; reflexivity | apply us_nil].
  - exists counts. split; [exact Hlen | exact Hsub].
Defined.

(** X21, on a store that accepts the first audit write and then refuses
    the three tries of the SELECT. *)
Lemma main_fetch_failure_witness :
  let w :=
    mkWorld [ok; boom RdsResponse "timeout"; boom RdsResponse "timeout";
             boom RdsResponse "timeout"] [] [] [] 0 in
  exists s',
    main services 5 (start 3 w) = (Raise rds_failed, s') /\
    filter closes_run (rds_statements (trace s')) = [].
Proof.
  intros w. pose (sA := start 3 w).
  let s1 := eval vm_compute in
      (snd (fetch_pending_sps services
              (snd (update_audit_log services "InProgress" None true sA)))) in
  destruct (main_fetch_failure services 5 sA s1 rds_failed)
    as (s' & a & Hrun & Ht & _).
  - reflexivity.
  - vm_compute. reflexivity.
  - exists s'. split; [exact Hrun |]. rewrite Ht. reflexivity.
Defined.

(** X22, on scenario A with the retry limit 0. *)
Lemma main_without_retry_budget_witness :
  exists s',
    main services 5 (start 0 scenario_A)
    = (Raise (attribute_error "failed_sp_entry"), s') /\
    submissions (trace s') = [].
Proof.
  pose (sA := start 0 scenario_A).
  let s1 := eval vm_compute in
      (snd (fetch_pending_sps services
              (snd (update_audit_log services "InProgress" None true sA)))) in
  destruct (main_without_retry_budget services 5 sA s1 ("SP_A", "SPDST")
              [("SP_B", "OTHERS")])
    as (s' & a & Hrun & Ht & _).
  - cbn. lia.
  - reflexivity.
  - reflexivity.
  - vm_compute. reflexivity.
  - exists s'. split; [exact Hrun |]. rewrite Ht. reflexivity.
Defined.

(** ** The start of a run, the report of a failure, a failed status
    check *)

Section RunnerEdges.

Context {W : Type} (svc : Services W).

Lemma published_app (tr1 tr2 : list Event) :
  published (tr1 ++ tr2) = published tr1 ++ published tr2.
Proof.
  induction tr1 as [| [] tr1 IH]; cbn; auto. now rewrite IH.
Qed.

Lemma update_audit_log_publishes_nothing (st : string)
  (es : option string) (b : bool) (s : St W) :
  exists s' tl,
    update_audit_log svc st es b s = (Ret tt, s') /\
    trace s' = trace s ++ tl /\ published tl = [] /\ self s' = self s.
Proof.
  set (quiet := fun ev : Event =>
                  match ev with
                  | EvPublish _ _ _ _ => False
                  | _ => True
                  end).
  destruct (emits_update_audit_log svc (fun _ => True) quiet (fun _ => I)
              st es b) with (s := s) as (_ & (tl & Ht & Hp) & _); cbn; auto.
  destruct (update_audit_log_ret svc st es b s) as [Hret Hself].
  destruct (update_audit_log svc st es b s) as [[[] | e |] s'];
    cbn in *; try discriminate.
  exists s', tl. repeat split; auto.
  clear - Hp. induction Hp as [| ev tl Hev _ IH]; cbn; auto.
  destruct ev; cbn in *; auto; contradiction.
Qed.

(** X23: every run of [main] starts by marking the master table: the
    first thing it does, whatever follows, is to send the update that
    sets the status InProgress and the start time, for the region of the
    job. *)
Theorem main_starts_with_in_progress (fuel : nat) (s : St W) :
  exists answer tl,
    trace (snd (main svc fuel s))
    = trace s
      ++ EvRds
           (UpdateMasterInitial (utcnow svc (world s)) "InProgress"
              (reportregionname (self s))) answer :: tl.
Proof.
  set (sql := UpdateMasterInitial _ _ _).
  destruct (execute_with_retry_first svc sql s) as (answer & tl0 & Ht0).
  assert (Hupd : trace (snd (update_audit_log svc "InProgress" None true s))
                 = trace s ++ EvRds sql answer :: tl0).
  { unfold update_audit_log, try_except, bind, get_self, now.
    fold sql. destruct (execute_with_retry svc sql s) as [[[] | e |] s'];
      exact Ht0. }
  set (rest :=
         try_except
           (stored_procedures <- fetch_pending_sps svc ;;
            match stored_procedures with
            | [] => send_sns_message svc "Succeeded" [] ;; ret true
            | _ =>
                for_each (R := bool) stored_procedures
                  (main_for_body svc fuel) ;;
                update_audit_log svc "Completed" (Some "Finished") false ;;
                send_sns_message svc "Succeeded" [] ;;
                ret true
            end)
           (main_handler svc)).
  assert (Hrest : emits (fun _ => True) (fun _ => True) rest (fun _ => True)).
  { subst rest. apply emits_try; [| intros; apply emits_main_handler; auto].
    eapply emits_bind; [apply emits_fetch_pending_sps; auto |].
    intros [| sp sps] _.
    - eapply emits_bind; [apply emits_send_sns_message; auto |].
      intros; now apply emits_ret.
    - eapply emits_bind;
        [apply emits_for_each; intros; apply emits_main_for_body; auto |].
      intros _ _.
      eapply emits_bind; [apply emits_update_audit_log; auto |]. intros _ _.
      eapply emits_bind; [apply emits_send_sns_message; auto |].
      intros; now apply emits_ret. }
  assert (Hmain : main svc fuel s
                  = rest (snd (update_audit_log svc "InProgress" None true s))).
  { destruct (update_audit_log_ret svc "InProgress" None true s) as [Hret _].
    unfold main, rest, try_except. unfold bind at 1.
    destruct (update_audit_log svc "InProgress" None true s)
      as [[[] | e |] s0]; cbn in Hret; try discriminate. reflexivity. }
  destruct (emits_appends rest
              (snd (update_audit_log svc "InProgress" None true s)) Hrest)
    as (tl & Ht).
  exists answer, (tl0 ++ tl). rewrite Hmain, Ht, Hupd.
  now rewrite <- app_assoc.
Qed.

(** X24: a procedure that has used up its retries with a failure record
    stored is reported twice.  Under the hypotheses of the fail-fast
    property, [main] raises the exception "SP ... failed after N retries
    ... Job terminating." and publishes exactly two messages after the
    last execution: the failure notification that carries the record,
    then, from its own [except] clause, a second failure notification
    whose error is "Unexpected error". *)
Theorem main_reports_failure_twice (fuel : nat) (s : St W)
  (sps : list (string * string)) (i : nat) (sp_name file_source : string)
  (s1 s2 s3 : St W) (entry : FailedSpEntry) :
  fetch_pending_sps svc (snd (update_audit_log svc "InProgress" None true s))
  = (Ret sps, s1) ->
  nth_error sps i = Some (sp_name, file_source) ->
  units_succeed svc fuel (firstn i sps) s1 s2 ->
  execute_sp_with_retries svc fuel sp_name file_source s2 = (Ret false, s3) ->
  failed_sp_entry (self s3) = Some entry ->
  exists s' tl,
    main svc fuel s = (Raise (terminating (self s3) sp_name), s') /\
    trace s' = trace s3 ++ tl /\
    published tl
    = [(sns_arn (self s3),
        StatusMessage (env (self s3)) [FailedSp entry] "Failed"
          (reportregionname (self s3)) (Job_name (self s3))
          (loggroupname (self s3)) (job_run_id (self s3)));
       (sns_arn (self s3),
        StatusMessage (env (self s3)) [ErrorText "Unexpected error"] "Failed"
          (reportregionname (self s3)) (Job_name (self s3))
          (loggroupname (self s3)) (job_run_id (self s3)))].
Proof.
  intros Hfetch Hnth Hpre Hx Hentry.
  destruct (nth_error_split sps i Hnth) as (pre & post & Hsps & Hlen).
  assert (Hfirst : firstn i sps = pre).
  { rewrite Hsps, <- Hlen, firstn_app, firstn_all, Nat.sub_diag. cbn.
    now rewrite app_nil_r. }
  rewrite Hfirst in Hpre.
  destruct (update_audit_log_publishes_nothing "Failed" (Some "Failed") false
              s3) as (s4 & tl1 & Hu1 & Ht1 & Hp1 & Hs1).
  destruct (send_sns_message_failure_run svc "Failed" (FailedSp entry) [] s4)
    as (a1 & s5 & Hn1 & Ht2 & Hs2).
  destruct (update_audit_log_publishes_nothing "Failed" (Some "Failed") false
              s5) as (s6 & tl3 & Hu3 & Ht3 & Hp3 & Hs3).
  destruct (send_sns_message_failure_run svc "Failed"
              (ErrorText "Unexpected error") [] s6)
    as (a2 & s7 & Hn2 & Ht4 & Hs4).
  assert (Hbody : main_for_body svc fuel (sp_name, file_source) s2
                  = (Raise (terminating (self s3) sp_name), s5)).
  { unfold main_for_body. unfold bind at 1. rewrite Hx. cbn [negb]. cbv iota.
    unfold bind at 1. rewrite Hu1.
    unfold bind at 1, get_failed_sp_entry, bind at 1, get_self.
    rewrite Hs1, Hentry. unfold ret at 1.
    unfold bind at 1. rewrite Hn1.
    unfold bind, get_self, raise. now rewrite Hs2, Hs1. }
  assert (Hhandler : main_handler svc (terminating (self s3) sp_name) s5
                     = (Raise (terminating (self s3) sp_name), s7)).
  { unfold main_handler. unfold bind at 1. rewrite Hu3.
    unfold bind at 1. now rewrite Hn2. }
  exists s7,
    (tl1 ++ [status_event (self s4) "Failed" [FailedSp entry] a1] ++ tl3
     ++ [status_event (self s6) "Failed" [ErrorText "Unexpected error"] a2]).
  repeat split.
  - unfold main, try_except. unfold bind at 1.
    pose proof (update_audit_log_ret svc "InProgress" None true s) as [Hret _].
    destruct (update_audit_log svc "InProgress" None true s)
      as [[[] | e0 |] s0]; cbn [fst snd] in Hret, Hfetch; try discriminate.
    unfold bind at 1. rewrite Hfetch.
    destruct sps as [| sp0 sps0]; [destruct pre; discriminate |].
    unfold bind at 1. rewrite Hsps.
    rewrite (for_each_stops svc fuel pre post sp_name file_source s1 s2 _ s5
               Hpre Hbody).
    exact Hhandler.
  - rewrite Ht4, Ht3, Ht2, Ht1. now rewrite <- !app_assoc.
  - rewrite !published_app, Hp1, Hp3. cbn.
    now rewrite Hs3, Hs2, Hs1.
Qed.

(** X25: an exception of the status check uses up the execution like a
    status FAILED.  With one execution left, an accepted submission
    whose status check raises makes [execute_sp_with_retries] pause
    once for 120 seconds, after the failed check, and return [False]
    with the failure record stored: its error is the text of the
    exception, and [error_message] the fragment of that text. *)
Theorem execute_sp_with_retries_status_check_raises (fuel : nat)
  (sp_name file_source : string) (s : St W) (query_id : string) (w1 w2 : W)
  (e : Exn) :
  RETRY_LIMIT (self s) = 1%Z ->
  redshift_execute_statement svc (call_sql sp_name) (world s)
  = (inr query_id, w1) ->
  describe_statement svc query_id w1 = (inl e, w2) ->
  execute_sp_with_retries svc (S fuel) sp_name file_source s
  = (Ret false,
     mkSt (time_sleep svc 120 w2)
       (trace s
        ++ [EvRedshiftExecute (call_sql sp_name) (inr query_id);
            EvDescribe query_id (inl e); EvSleep 120])
       (record_failure sp_name file_source
          (mkStatus "FAILED" (Some (exn_text e))) (self s))).
Proof.
  intros HR Hx Hd.
  assert (Ha : attempt svc (S fuel) sp_name s
               = (Ret (mkStatus "FAILED" (Some (exn_text e)), "FAILED"),
                  mkSt (time_sleep svc 120 w2)
                    (trace s
                     ++ [EvRedshiftExecute (call_sql sp_name) (inr query_id);
                         EvDescribe query_id (inl e); EvSleep 120])
                    (self s))).
  { unfold attempt, bind at 1, redshift_execute, call. rewrite Hx.
    cbv beta iota. unfold check_query_status. cbn [while_ snd].
    change (negb (is_terminal "SUBMITTED")) with true. cbv iota.
    unfold bind. rewrite check_query_status_body_step.
    cbn [world trace self]. rewrite Hd. cbn [fst snd].
    unfold slept. cbn [world trace self].
    destruct fuel; cbn; now rewrite <- !app_assoc. }
  unfold execute_sp_with_retries, bind at 1, get_self. unfold bind at 1.
  cbn [while_]. rewrite HR. change (0 <? 1) with true. cbv iota.
  unfold bind at 1. rewrite execute_sp_with_retries_body_step, Ha.
  cbn [String.eqb Ascii.eqb Bool.eqb]. rewrite HR.
  change (0 + 1 <? 1) with false. cbv iota. reflexivity.
Qed.

End RunnerEdges.

(** X24, on scenario A. *)
Lemma main_reports_failure_twice_witness :
  exists s' tl,
    main services 5 (start 3 scenario_A)
    = (Raise
         (mkExn "Exception"
            "SP SP_B failed after 3 retries in dev - EMEA. Job terminating."),
       s') /\
    List.length (published tl) = 2%nat.
Proof.
  pose (sA := start 3 scenario_A).
  let s1 := eval vm_compute in
      (snd (fetch_pending_sps services
              (snd (update_audit_log services "InProgress" None true sA)))) in
  let s2 := eval vm_compute in
      (snd (execute_sp_with_retries services 5 "SP_A" "SPDST" s1)) in
  let s3 := eval vm_compute in
      (snd (execute_sp_with_retries services 5 "SP_B" "OTHERS" s2)) in
  destruct (main_reports_failure_twice services 5 sA
              [("SP_A", "SPDST"); ("SP_B", "OTHERS")] 1 "SP_B" "OTHERS"
              s1 s2 s3
              (mkFailedSpEntry "SP_B" "ERROR: e3" "SPDST/Others" "EMEA"))
    as (s' & tl & Hrun & _ & Hpub).
  - vm_compute. reflexivity.
  - reflexivity.
  - eapply us_cons; [vm_compute; reflexivity | apply us_nil].
  - vm_compute. reflexivity.
  - reflexivity.
  - exists s', tl. split; [exact Hrun |]. now rewrite Hpub.
Defined.

(** X25, on an engine whose first status check raises, with the retry
    limit 1. *)
Lemma execute_sp_with_retries_status_check_raises_witness :
  let s :=
    start 1 (mkWorld [] [] [boom StatementStatus "ERROR: throttled"] [] 0) in
  let r := execute_sp_with_retries services 3 "SP_A" "SPDST" s in
  fst r = Ret false /\
  failed_sp_entry (self (snd r))
  = Some (mkFailedSpEntry "SP_A" "ERROR: throttled" "SPDST" "EMEA") /\
  error_message (self (snd r)) = Some " throttled".
Proof.
  intros s r. subst r.
  rewrite (execute_sp_with_retries_status_check_raises services 2
             "SP_A" "SPDST" s "q" (mkWorld [] [] [boom StatementStatus
             "ERROR: throttled"] [] 0) (mkWorld [] [] [] [] 0)
             (mkExn "ClientError" "ERROR: throttled"));
    repeat split; reflexivity.
Defined.
